(** * DinChatbot backend: the response-decision pipeline

    A shallow embedding of [app/services/rule_engine.py],
    [app/services/ai_service.py], [app/api/chat.py] and
    [app/core/config.py], and the properties of the rule matcher, the
    usage gate, the context assembly, the fallback chain, what a request
    stores, and the validation of the settings. *)

From Stdlib Require Import ZArith NArith Ascii String DecimalString.
From stdpp Require Import base numbers option list sorting gmap.

Local Open Scope N_scope.

(** ** Python strings

    A Python [str] is a sequence of Unicode code points. *)

Definition char := N.
Definition pystr := list char.

(** Source literals are written as they stand in the [.py] files; the
    files are UTF-8, so a literal is decoded from its bytes. *)
Fixpoint utf8_decode (bs : list N) : pystr :=
  match bs with
  | [] => []
  | b :: r =>
      if b <? 128 then b :: utf8_decode r
      else if b <? 224 then
        match r with
        | b1 :: r1 => ((b - 192) * 64 + (b1 - 128)) :: utf8_decode r1
        | _ => []
        end
      else if b <? 240 then
        match r with
        | b1 :: b2 :: r2 =>
            ((b - 224) * 4096 + (b1 - 128) * 64 + (b2 - 128)) :: utf8_decode r2
        | _ => []
        end
      else
        match r with
        | b1 :: b2 :: b3 :: r3 =>
            ((b - 240) * 262144 + (b1 - 128) * 4096 + (b2 - 128) * 64 + (b3 - 128))
              :: utf8_decode r3
        | _ => []
        end
  end.

Definition py (s : string) : pystr :=
  utf8_decode (List.map N_of_ascii (list_ascii_of_string s)).
Arguments py : simpl never.

Definition SPACE : char := 32.
Definition NEWLINE : char := 10.
Definition QUOTE : char := 34.

(** The character tables of the interpreter: [\w] and [\s] of [re] on
    [str] patterns, the whitespace of [str.split] and [str.strip] (the
    same set as [\s]), and [str.lower]. They belong to the Python
    runtime, not to the repository, and are a parameter of the model. *)
Record CharTables := {
  is_word : char -> bool;
  is_space : char -> bool;
  lower : pystr -> pystr
}.

(** The tables on the first 256 code points (Basic Latin and Latin-1
    Supplement), which cover the catalog; code points above are left
    unclassified by this instance. *)
Definition between (lo hi c : N) : bool := (lo <=? c) && (c <=? hi).

Definition latin1_is_space (c : char) : bool :=
  between 9 13 c || between 28 32 c || (c =? 133) || (c =? 160).

Definition latin1_is_alnum (c : char) : bool :=
  between 48 57 c || between 65 90 c || between 97 122 c
  || (c =? 170) || (c =? 178) || (c =? 179) || (c =? 181) || (c =? 185)
  || (c =? 186) || between 188 190 c
  || between 192 214 c || between 216 246 c || between 248 255 c.

Definition latin1_is_word (c : char) : bool :=
  latin1_is_alnum c || (c =? 95).

Definition latin1_lower_char (c : char) : char :=
  if between 65 90 c || between 192 214 c || between 216 222 c
  then c + 32 else c.

Definition latin1 : CharTables := {|
  is_word := latin1_is_word;
  is_space := latin1_is_space;
  lower := List.map latin1_lower_char
|}.

Definition in_latin1 (s : pystr) : Prop := Forall (fun c => c < 256) s.

(** A table agrees with Python's on the first 256 code points. *)
Definition python_on_latin1 (T : CharTables) : Prop :=
  (forall c, c < 256 ->
     is_word T c = latin1_is_word c /\ is_space T c = latin1_is_space c)
  /\ (forall s, in_latin1 s -> lower T s = List.map latin1_lower_char s).

Section PyStr.
Variable T : CharTables.

Fixpoint lstrip (s : pystr) : pystr :=
  match s with
  | c :: s' => if is_space T c then lstrip s' else s
  | [] => []
  end.

(** [str.strip()] *)
Definition strip (s : pystr) : pystr :=
  List.rev (lstrip (List.rev (lstrip s))).

(** [str.split()]: the maximal runs of non-whitespace; [cur] is the
    run being read, most recent character first. *)
Fixpoint split_from (cur : pystr) (s : pystr) : list pystr :=
  match s with
  | [] => match cur with [] => [] | _ => [List.rev cur] end
  | c :: s' =>
      if is_space T c then
        match cur with
        | [] => split_from [] s'
        | _ => List.rev cur :: split_from [] s'
        end
      else split_from (c :: cur) s'
  end.

Definition split (s : pystr) : list pystr := split_from [] s.
End PyStr.

(** [sep.join(parts)] *)
Fixpoint join (sep : pystr) (parts : list pystr) : pystr :=
  match parts with
  | [] => []
  | [p] => p
  | p :: rest => p ++ sep ++ join sep rest
  end.

(** [l[-n:]] for [n > 0] *)
Definition lastn {A} (n : nat) (l : list A) : list A :=
  skipn (length l - n) l.

(** [str(n)] for a non-negative integer *)
Definition str_of_nat (n : nat) : pystr :=
  py (NilEmpty.string_of_uint (Nat.to_uint n)).

(** ** The fragment of [re] the rule engine uses

    [_match_intent] builds [r'\b' + re.escape(kw) + r'\b']: a sequence
    of literal characters between two word-boundary assertions. *)
Inductive regex_item :=
| WordBoundary
| Literal (c : char).

Definition regex := list regex_item.

(** [re.escape] turns every character into one that matches itself. *)
Definition re_escape (s : pystr) : regex := List.map Literal s.

Definition WORD_BOUNDARY : regex := [WordBoundary].

Section Re.
Variable T : CharTables.

Definition word_at (c : option char) : bool :=
  match c with Some c => is_word T c | None => false end.

(** [\b]: exactly one of the two neighbours is a word character; the
    string edges count as non-word. *)
Definition at_boundary (prev next : option char) : bool :=
  xorb (word_at prev) (word_at next).

(** Match the pattern at the current position; [prev] is the
    character before it. *)
Fixpoint match_here (pat : regex) (prev : option char) (s : pystr) : bool :=
  match pat with
  | [] => true
  | WordBoundary :: pat' =>
      at_boundary prev (head s) && match_here pat' prev s
  | Literal c :: pat' =>
      match s with
      | c' :: s' => (c =? c') && match_here pat' (Some c') s'
      | [] => false
      end
  end.

Fixpoint search_from (pat : regex) (prev : option char) (s : pystr) : bool :=
  match_here pat prev s
  || match s with
     | [] => false
     | c :: s' => search_from pat (Some c) s'
     end.

(** [bool(re.search(pat, s))] *)
Definition re_search (pat : regex) (s : pystr) : bool :=
  search_from pat None s.

(** [re.sub(r'[^\w\s]', ' ', text)] *)
Definition sub_punctuation (text : pystr) : pystr :=
  List.map (fun c => if is_word T c || is_space T c then c else SPACE) text.
End Re.

(** ** [app/services/rule_engine.py] *)
Module RuleEngine.

Record Intent := {
  name : pystr;
  keywords : list pystr;
  response_template : pystr;
  priority : Z
}.

(** The intent definitions of [__init__], in definition order. *)
Definition intent_definitions : list Intent := [
  {| name := py "greeting";
     keywords := List.map py [
       "hej"; "goddag"; "hello"; "hejsa"; "halløj"; "hey";
       "godmorgen"; "godaften"; "hi"; "davs"; "dav" ]%string;
     response_template := py "Hej! Hvordan kan jeg hjælpe dig i dag?";
     priority := 1 |};
  {| name := py "opening_hours";
     keywords := List.map py [
       "åbningstid"; "åbningstider"; "åbent"; "lukket"; "åbner"; "lukker";
       "hvornår åbner"; "hvornår lukker"; "åben"; "lukke";
       "opening"; "hours"; "åbent i dag" ]%string;
     response_template :=
       py "Vi har åbent mandag-fredag kl. 09:00–17:00, weekend 10:00-14:00.";
     priority := 2 |};
  {| name := py "prices";
     keywords := List.map py [
       "pris"; "priser"; "koster"; "honorar"; "tilbud";
       "hvad koster"; "prisoverslag"; "betaling"; "betale";
       "kr"; "kroner"; "betale"; "pris på" ]%string;
     response_template :=
       py "Priser afhænger af den konkrete ydelse. Kontakt os gerne for et skræddersyet tilbud.";
     priority := 2 |};
  {| name := py "booking";
     keywords := List.map py [
       "book"; "booking"; "bestil"; "aftale"; "reservation";
       "tid"; "book en tid"; "reservere"; "time"; "bestille" ]%string;
     response_template :=
       py "Du kan booke en tid via vores hjemmeside eller ringe til os.";
     priority := 2 |};
  {| name := py "contact";
     keywords := List.map py [
       "kontakt"; "telefon"; "email"; "mail"; "nummer"; "ring";
       "tlf"; "ringe"; "kontakte"; "få fat i" ]%string;
     response_template :=
       py "Du kan kontakte os på telefon +45 12 34 56 78 eller via email kontakt@example.dk.";
     priority := 2 |};
  {| name := py "location";
     keywords := List.map py [
       "adresse"; "lokation"; "finde jer"; "hvor ligger";
       "parkering"; "adresse"; "beliggenhed"; "hvor er";
       "placering"; "hvordan finder jeg" ]%string;
     response_template :=
       py "Vi holder til på Eksempelvej 12, 1234 By. Der er gratis parkering ved bygningen.";
     priority := 2 |};
  {| name := py "services";
     keywords := List.map py [
       "ydelse"; "ydelser"; "service"; "services"; "tilbud";
       "laver i"; "kan i"; "gør i"; "hvad laver" ]%string;
     response_template :=
       py "Vi tilbyder [indsæt jeres ydelser]. Kontakt os for mere information om en specifik ydelse.";
     priority := 2 |};
  {| name := py "shipping";
     keywords := List.map py [
       "forsendelse"; "levering"; "fragt"; "leveringstid";
       "track"; "tracking"; "sendelse"; "levere" ]%string;
     response_template :=
       py "Vi leverer typisk inden for 1–3 hverdage. Du modtager tracking når pakken er afsendt.";
     priority := 2 |};
  {| name := py "returns";
     keywords := List.map py [
       "returnering"; "retur"; "bytte"; "refusion"; "fortryd";
       "returnere"; "ombytning"; "penge retur" ]%string;
     response_template :=
       py "Du har 14 dages returret. Kontakt os, så guider vi dig gennem processen.";
     priority := 2 |};
  {| name := py "order_status";
     keywords := List.map py [
       "ordre"; "ordrenummer"; "min ordre"; "ordrestatus";
       "bestilling"; "min bestilling"; "status"; "hvor er" ]%string;
     response_template :=
       py "Send gerne dit ordrenummer, så kan vi hjælpe dig med at finde din ordre.";
     priority := 2 |};
  {| name := py "payments";
     keywords := List.map py [
       "betaling"; "betalingsmetoder"; "kort"; "mobilepay";
       "faktura"; "betale"; "betalingsmulighed"; "betale med" ]%string;
     response_template := py "Vi tager imod kortbetaling, MobilePay og faktura.";
     priority := 2 |};
  {| name := py "goodbye";
     keywords := List.map py [
       "farvel"; "hej hej"; "tak"; "tak for hjælpen";
       "bye"; "goodbye"; "ses"; "god dag" ]%string;
     response_template :=
       py "Tak fordi du skrev! Kontakt os gerne igen hvis du har flere spørgsmål.";
     priority := 1 |};
  {| name := py "help";
     keywords := List.map py [
       "hjælp"; "hjælpe"; "support"; "kundeservice";
       "assistance"; "problem"; "issue" ]%string;
     response_template := py "Jeg er her for at hjælpe! Hvad kan jeg gøre for dig?";
     priority := 2 |};
  {| name := py "human_support";
     keywords := List.map py [
       "menneske"; "medarbejder"; "tale med"; "rigtig person";
       "agent"; "support"; "kundeservice"; "ikke robot" ]%string;
     response_template :=
       py "Selvfølgelig! Du kan kontakte vores kundeservice på telefon +45 12 34 56 78 eller email kontakt@example.dk.";
     priority := 3 |}
].

(** [list.sort(key=priority, reverse=True)]: Python's sort is stable,
    also under [reverse=True], so intents of equal priority keep their
    definition order. A stable sort has one possible result; it is
    computed here by insertion from the right. *)
Fixpoint insert_desc (x : Intent) (l : list Intent) : list Intent :=
  match l with
  | [] => [x]
  | y :: l' =>
      if (priority x <? priority y)%Z then y :: insert_desc x l'
      else x :: y :: l'
  end.

Fixpoint sort_desc (l : list Intent) : list Intent :=
  match l with
  | [] => []
  | x :: l' => insert_desc x (sort_desc l')
  end.

(** The engine object: its only attribute is [self.intents]. *)
Record t := { intents : list Intent }.

(** [__init__], on a given list of intent definitions *)
Definition init (definitions : list Intent) : t :=
  {| intents := sort_desc definitions |}.

(** The response dict of [get_response]. *)
Record Response := {
  reply : pystr;
  intent : option pystr;
  is_fallback : bool
}.

Definition EMPTY_REPLY : pystr := py "Skriv gerne en besked, så hjælper jeg 😊".
Definition FALLBACK_REPLY : pystr :=
  py "Jeg forstod ikke helt. Kan du omformulere, eller vil du gerne tale med en medarbejder?".

Section Methods.
Variable T : CharTables.

Definition _normalize (text : pystr) : pystr :=
  let text := lower T text in
  let text := sub_punctuation T text in
  join [SPACE] (split T text).

Definition keyword_pattern (keyword : pystr) : regex :=
  WORD_BOUNDARY ++ re_escape (lower T keyword) ++ WORD_BOUNDARY.

Definition keyword_matches (normalized_message keyword : pystr) : bool :=
  re_search T (keyword_pattern keyword) normalized_message.

Definition intent_matches (normalized_message : pystr) (i : Intent) : bool :=
  existsb (keyword_matches normalized_message) (keywords i).

(** The two nested loops return at the first keyword that matches. *)
Definition _match_intent (self : t) (normalized_message : pystr)
  : option Intent :=
  List.find (intent_matches normalized_message) (intents self).

Definition get_response (self : t) (message : pystr) : Response :=
  match message with
  | [] => {| reply := EMPTY_REPLY; intent := None; is_fallback := true |}
  | _ =>
      let normalized := _normalize message in
      match _match_intent self normalized with
      | Some matched_intent =>
          {| reply := response_template matched_intent;
             intent := Some (name matched_intent);
             is_fallback := false |}
      | None =>
          {| reply := FALLBACK_REPLY; intent := None; is_fallback := true |}
      end
  end.
End Methods.

(** The global instance [rule_engine = RuleEngine()]. *)
Definition rule_engine : t := init intent_definitions.

End RuleEngine.

(** ** The database ([app/models])

    [Conversation] and [Message] are declared in
    [app/models/conversation.py]; their columns are the ones
    [app/api/chat.py] reads and writes. *)
Module Client.
Record t := {
  company_name : pystr;
  website_url : option pystr;
  is_active : bool;
  use_ai : bool;
  ai_requests_today : Z;
  ai_requests_limit : Z
}.

Definition with_ai_requests_today (n : Z) (c : t) : t :=
  {| company_name := company_name c;
     website_url := website_url c;
     is_active := is_active c;
     use_ai := use_ai c;
     ai_requests_today := n;
     ai_requests_limit := ai_requests_limit c |}.
End Client.

Module Conversation.
Record t := {
  id : nat;
  client_id : pystr;
  session_id : pystr
}.
End Conversation.

Module Message.
Record t := {
  conversation_id : nat;
  role : pystr;
  content : pystr;
  intent : option pystr;
  is_ai : bool;
  tokens_used : option Z
}.
End Message.

(** The [clients] table is keyed by its primary key [Client.id]; the
    [messages] table is kept in the order in which
    [ORDER BY created_at] returns its rows, oldest first. Rows written
    by different commits come in the order of the commits. *)
Record DB := {
  clients : gmap pystr Client.t;
  conversations : list Conversation.t;
  messages : list Message.t
}.

Definition set_clients (f : gmap pystr Client.t -> gmap pystr Client.t) (d : DB) : DB :=
  {| clients := f (clients d);
     conversations := conversations d;
     messages := messages d |}.

Definition add_conversation (c : Conversation.t) (d : DB) : DB :=
  {| clients := clients d;
     conversations := conversations d ++ [c];
     messages := messages d |}.

(** The rows [ms] of one commit, given in the order in which
    [ORDER BY created_at] returns them, join the table after the rows
    of the earlier commits. *)
Definition add_all (ms : list Message.t) (d : DB) : DB :=
  {| clients := clients d;
     conversations := conversations d;
     messages := messages d ++ ms |}.

(** The next value of the autoincrement key of [conversations]. *)
Definition next_conversation_id (d : DB) : nat :=
  S (list_max (List.map Conversation.id (conversations d))).

(** The turns of one conversation, oldest first. *)
Definition messages_of (conversation_id : nat) (d : DB) : list Message.t :=
  List.filter (fun m => Nat.eqb (Message.conversation_id m) conversation_id)
    (messages d).

(** ** Effects

    One request runs against a world: the database, and the record of
    what was asked of the outside so far (statements sent to the
    database, calls to the Gemini model), oldest first. *)
Module Gemini.
(** An entry of the [history] given to [start_chat]. *)
Record turn := {
  role : pystr;
  parts : list pystr
}.
End Gemini.

(** The statements the code of one request sends to the database. *)
Inductive StoreOp :=
| SelectClient          (* chat.py, line 80 *)
| SelectConversation    (* chat.py, lines 88-90 *)
| InsertConversation    (* chat.py, lines 97-98 *)
| SelectMessages        (* chat.py, lines 101-103: the history store *)
| SelectUsage           (* ai_service.py, line 198 *)
| UpdateUsage           (* ai_service.py, lines 217-218 *)
| SelectKnowledge       (* knowledge_service.get_knowledge_texts *)
| InsertMessages.       (* chat.py, lines 186-187 *)

Inductive Event :=
| Store (op : StoreOp)
| SendMessage (chat_history : list Gemini.turn) (full_prompt : pystr).

Record World := {
  db : DB;
  trace : list Event
}.

Inductive exn :=
| HTTPException (status_code : Z) (detail : pystr)
| StorageError (op : StoreOp).

Inductive outcome (A : Type) :=
| Return (a : A) (w : World)
| Raise (e : exn) (w : World).
Arguments Return {A} a w.
Arguments Raise {A} e w.

Definition M (A : Type) : Type := World -> outcome A.

Definition ret {A} (a : A) : M A := fun w => Return a w.
Definition raise {A} (e : exn) : M A := fun w => Raise e w.
Definition bind {A B} (c : M A) (k : A -> M B) : M B :=
  fun w =>
    match c w with
    | Return a w' => k a w'
    | Raise e w' => Raise e w'
    end.

Notation "'let!' x ':=' c 'in' k" := (bind c (fun x => k))
  (at level 10, x pattern, c at level 100, k at level 200).

Definition final_world {A} (o : outcome A) : World :=
  match o with Return _ w => w | Raise _ w => w end.

(** What lies outside the sources at hand: the character tables, the
    statements on which the database raises, the texts that
    [app/services/knowledge_service.py] reads from the database for a
    tenant, in stored order, the Gemini model, and the order of the rows
    of one commit. For the model [None] stands for a raised exception:
    any error of [start_chat], [send_message] or [response.text], a
    timeout that the client library reports included.

    [created_at] of [Message] is declared in
    [app/models/conversation.py]. The two rows of a turn are added by
    one [add_all] and written by one [commit]; when the database fills
    the column (as [server_default=func.now()] does in the models at
    hand) both rows carry the same timestamp, and which of them
    [ORDER BY created_at] puts first is for the database to say:
    [assistant_row_first] tells whether it is the assistant's. *)
Record Env := {
  tables : CharTables;
  storage_fails : StoreOp -> bool;
  knowledge_texts : pystr -> DB -> list pystr;
  send_message : list Gemini.turn -> pystr -> option pystr;
  assistant_row_first : bool
}.

Section Primitives.
Variable E : Env.

Definition log (ev : Event) : M unit :=
  fun w => Return tt {| db := db w; trace := trace w ++ [ev] |}.

(** One statement sent to the database. *)
Definition round_trip (op : StoreOp) : M unit :=
  let! _ := log (Store op) in
  if storage_fails E op then raise (StorageError op) else ret tt.

(** [db.query(...)...first()] and [...all()] *)
Definition query {A} (op : StoreOp) (q : DB -> A) : M A :=
  let! _ := round_trip op in
  fun w => Return (q (db w)) w.

(** [db.commit()] of the pending changes [f]; a commit that raises
    leaves the database as it was. *)
Definition commit (op : StoreOp) (f : DB -> DB) : M unit :=
  let! _ := round_trip op in
  fun w => Return tt {| db := f (db w); trace := trace w |}.

(** Modelled from the spec: [knowledge_service.get_knowledge_texts]
    ([app/services/knowledge_service.py] is not among the sources at
    hand). It fetches the knowledge texts of the tenant from the
    database, in their stored order (spec, 4.4 and 6); as a statement
    sent to the database, it may fail. *)
Definition get_knowledge_texts (client_id : pystr) : M (list pystr) :=
  query SelectKnowledge (knowledge_texts E client_id).
End Primitives.

(** The response dicts built by the services and by [chat]; a key that
    a dict does not carry is [None]. ([model], [cost] and [error], which
    [ChatResponse] does not declare and drops, are left out.) *)
Module ResponseData.
Record t := {
  reply : pystr;
  intent : option pystr;
  is_ai : option bool;
  is_fallback : bool;
  tokens_used : option Z
}.
End ResponseData.

(** An entry of [conversation_history]. *)
Module Turn.
Record t := {
  role : pystr;
  content : pystr
}.
End Turn.

Module ClientInfo.
Record t := {
  company_name : pystr;
  website_url : option pystr
}.
End ClientInfo.

Definition pystr_eqb (a b : pystr) : bool := bool_decide (a = b).

(** ** [app/services/ai_service.py] *)
Module GeminiService.

Definition BASE_INSTRUCTIONS (company_name : pystr) : pystr :=
  py "Du er en professionel kundeservice chatbot for " ++ company_name ++ py ".

DINE OPGAVER:
1. Svar venligt, præcist og professionelt på kundens spørgsmål
2. Brug ALTID informationen fra videnbasen nedenfor
3. Hvis du ikke ved svaret med sikkerhed, vær ærlig og tilbyd at viderestille til en medarbejder
4. Hold svar korte og præcise (max 100 ord)
5. Skriv ALTID på dansk
6. Vær hjælpsom men aldrig opdigtende

REGLER:
- Giv ALDRIG juridisk, medicinsk eller finansiel rådgivning
- Fortæl ALDRIG om priser du ikke kender med sikkerhed
- Lov ALDRIG noget på vegne af virksomheden
- Hvis usikker: " ++ [QUOTE]
  ++ py "Lad mig viderestille dig til en medarbejder som kan hjælpe bedre"
  ++ [QUOTE] ++ py "

TONE:
- Professionel men venlig
- Dansk sprogbrug
- Kort og konkret
".

(** [f"--- Side {i+1} ---\n{kb}" for i, kb in enumerate(...)], from
    index [i] on *)
Fixpoint sources_from (i : nat) (knowledge_base : list pystr) : list pystr :=
  match knowledge_base with
  | [] => []
  | kb :: rest =>
      (py "--- Side " ++ str_of_nat (i + 1) ++ py " ---" ++ [NEWLINE] ++ kb)
        :: sources_from (S i) rest
  end.

(** [client_info] always carries [company_name] when [chat] calls,
    so the default [client_id] of its lookup is never used. *)
Definition _build_system_prompt (client_id : pystr)
    (knowledge_base : list pystr) (client_info : ClientInfo.t) : pystr :=
  let company_name := ClientInfo.company_name client_info in
  let website := ClientInfo.website_url client_info in
  let prompt := BASE_INSTRUCTIONS company_name in
  let prompt :=
    match knowledge_base with
    | [] => prompt
    | _ =>
        prompt
        ++ [NEWLINE; NEWLINE]
        ++ py "VIDENBASE (brug denne information til at svare):" ++ [NEWLINE]
        ++ join [NEWLINE; NEWLINE] (sources_from 0 (firstn 10 knowledge_base))
    end in
  let prompt :=
    match website with
    | Some ((_ :: _) as website) =>
        prompt ++ [NEWLINE; NEWLINE]
        ++ py "VIRKSOMHEDENS HJEMMESIDE: " ++ website
    | _ => prompt
    end in
  prompt ++ [NEWLINE; NEWLINE]
  ++ py "Husk: Hvis du ikke kan svare præcist baseret på videnbasen, vær ærlig og tilbyd at viderestille.".

Definition gemini_turn (msg : Turn.t) : Gemini.turn :=
  {| Gemini.role :=
       if pystr_eqb (Turn.role msg) (py "assistant") then py "model" else py "user";
     Gemini.parts := [Turn.content msg] |}.

Definition build_chat_history (conversation_history : list Turn.t)
  : list Gemini.turn :=
  List.map gemini_turn (lastn 5 conversation_history).

Definition build_full_prompt (system_prompt message : pystr) : pystr :=
  system_prompt ++ py "

USER SPØRGSMÅL:
" ++ message ++ py "

SVAR (HUSK: Max 100 ord, på dansk):".

Definition AI_ERROR_REPLY : pystr :=
  py "Der opstod en fejl med AI-tjenesten. Lad mig viderestille dig til en medarbejder.".

Section Methods.
Variable E : Env.

(** [start_chat(history=...)], [send_message(full_prompt, ...)] and
    [response.text] *)
Definition generate (chat_history : list Gemini.turn) (full_prompt : pystr)
  : M (option pystr) :=
  let! _ := log (SendMessage chat_history full_prompt) in
  ret (send_message E chat_history full_prompt).

Definition get_response (message client_id : pystr)
    (knowledge_base : list pystr) (conversation_history : list Turn.t)
    (client_info : ClientInfo.t) : M ResponseData.t :=
  let system_prompt :=
    _build_system_prompt client_id knowledge_base client_info in
  let chat_history := build_chat_history conversation_history in
  let full_prompt := build_full_prompt system_prompt message in
  let! response := generate chat_history full_prompt in
  match response with
  | Some reply =>
      let tokens_used :=
        (Z.of_nat (length (split (tables E) full_prompt))
         + Z.of_nat (length (split (tables E) reply)))%Z in
      ret {| ResponseData.reply := reply;
             ResponseData.is_ai := Some true;
             ResponseData.is_fallback := false;
             ResponseData.intent := Some (py "ai_response");
             ResponseData.tokens_used := Some tokens_used |}
  | None =>
      (* except Exception *)
      ret {| ResponseData.reply := AI_ERROR_REPLY;
             ResponseData.is_ai := Some false;
             ResponseData.is_fallback := true;
             ResponseData.intent := None;
             ResponseData.tokens_used := None |}
  end.

Definition check_rate_limit (client_id : pystr) : M bool :=
  let! client := query E SelectUsage (fun d => clients d !! client_id) in
  match client with
  | None => ret false
  | Some client =>
      if (Client.ai_requests_limit client <=? Client.ai_requests_today client)%Z
      then ret false
      else
        let! _ := commit E UpdateUsage (set_clients
          (insert client_id
             (Client.with_ai_requests_today
                (Client.ai_requests_today client + 1) client))) in
        ret true
  end.
End Methods.

End GeminiService.

(** ** [app/api/chat.py] *)
Module ChatRequest.
Record t := {
  message : pystr;
  client_id : pystr;
  session_id : pystr;
  use_ai : bool
}.
End ChatRequest.

Module ChatResponse.
Record t := {
  reply : pystr;
  intent : option pystr;
  is_ai : bool;
  is_fallback : bool;
  tokens_used : option Z
}.

(** [ChatResponse(reply=..., is_fallback=True)] *)
Definition fallback (reply : pystr) : t :=
  {| reply := reply; intent := None; is_ai := false;
     is_fallback := true; tokens_used := None |}.

(** The response built from the keys of [response_data]: an absent
    key takes the default of the field. *)
Definition of_dict (d : ResponseData.t) : t :=
  {| reply := ResponseData.reply d;
     intent := ResponseData.intent d;
     is_ai := default false (ResponseData.is_ai d);
     is_fallback := ResponseData.is_fallback d;
     tokens_used := ResponseData.tokens_used d |}.
End ChatResponse.

Module Chat.

Definition EMPTY_REPLY : pystr := py "Skriv gerne en besked, så hjælper jeg 😊".
Definition TOO_LONG_REPLY : pystr :=
  py "Beskeden er for lang. Hold den venligst under 1000 tegn.".
Definition QUOTA_REPLY : pystr :=
  py "Du har nået grænsen for AI-forespørgsler i dag. En medarbejder vil kontakte dig snart.".
Definition FINAL_FALLBACK_REPLY : pystr :=
  py "Jeg forstod ikke helt. Lad mig viderestille dig til en medarbejder.".
Definition ERROR_REPLY : pystr := py "Der opstod en fejl. Prøv igen senere.".

Definition rule_response_data (r : RuleEngine.Response) : ResponseData.t :=
  {| ResponseData.reply := RuleEngine.reply r;
     ResponseData.intent := RuleEngine.intent r;
     ResponseData.is_ai := None;
     ResponseData.is_fallback := RuleEngine.is_fallback r;
     ResponseData.tokens_used := None |}.

Definition final_fallback : ResponseData.t :=
  {| ResponseData.reply := FINAL_FALLBACK_REPLY;
     ResponseData.intent := None;
     ResponseData.is_ai := None;
     ResponseData.is_fallback := true;
     ResponseData.tokens_used := None |}.

Definition history_turn (msg : Message.t) : Turn.t :=
  {| Turn.role := Message.role msg; Turn.content := Message.content msg |}.

Section Endpoint.
Variable E : Env.

(** [.order_by(Message.created_at.desc()).limit(10).all()] *)
Definition query_history (conversation_id : nat) : M (list Message.t) :=
  query E SelectMessages
    (fun d => firstn 10 (List.rev (messages_of conversation_id d))).

Definition get_or_create_conversation (request_data : ChatRequest.t)
  : M Conversation.t :=
  let! conversation := query E SelectConversation (fun d =>
    List.find (fun c => pystr_eqb (Conversation.session_id c)
                          (ChatRequest.session_id request_data))
      (conversations d)) in
  match conversation with
  | Some conversation => ret conversation
  | None =>
      fun w =>
        let conversation :=
          {| Conversation.id := next_conversation_id (db w);
             Conversation.client_id := ChatRequest.client_id request_data;
             Conversation.session_id := ChatRequest.session_id request_data |} in
        (let! _ := commit E InsertConversation (add_conversation conversation) in
         ret conversation) w
  end.

(** The two rows of [db.add_all([user_message, bot_message])], in
    the order in which [ORDER BY created_at] will return them. *)
Definition in_created_at_order (user_message bot_message : Message.t)
  : list Message.t :=
  if assistant_row_first E
  then [bot_message; user_message]
  else [user_message; bot_message].

(** Lines 163-189: the final fallback when no response was
    produced, the two messages saved, the response returned. *)
Definition save_and_respond (conversation : Conversation.t)
    (message : pystr) (response_data : option ResponseData.t)
  : M ChatResponse.t :=
  let response_data := default final_fallback response_data in
  let user_message :=
    {| Message.conversation_id := Conversation.id conversation;
       Message.role := py "user";
       Message.content := message;
       Message.intent := None;
       Message.is_ai := false;
       Message.tokens_used := None |} in
  let bot_message :=
    {| Message.conversation_id := Conversation.id conversation;
       Message.role := py "assistant";
       Message.content := ResponseData.reply response_data;
       Message.intent := ResponseData.intent response_data;
       Message.is_ai := default false (ResponseData.is_ai response_data);
       Message.tokens_used := ResponseData.tokens_used response_data |} in
  let! _ := commit E InsertMessages
              (add_all (in_created_at_order user_message bot_message)) in
  ret (ChatResponse.of_dict response_data).

(** The body of the [try] block. *)
Definition chat_body (request_data : ChatRequest.t) : M ChatResponse.t :=
  let message := strip (tables E) (ChatRequest.message request_data) in
  match message with
  | [] => ret (ChatResponse.fallback EMPTY_REPLY)
  | _ =>
  if (1000 <? length message)%nat then
    ret (ChatResponse.fallback TOO_LONG_REPLY)
  else
  let! client :=
    query E SelectClient
      (fun d => clients d !! ChatRequest.client_id request_data) in
  match client with
  | None => raise (HTTPException 404 (py "Client not found"))
  | Some client =>
  if negb (Client.is_active client) then
    raise (HTTPException 403 (py "Client is not active"))
  else
  let! conversation := get_or_create_conversation request_data in
  let! previous_messages := query_history (Conversation.id conversation) in
  let conversation_history :=
    List.map history_turn (List.rev previous_messages) in
  let rule_response :=
    RuleEngine.get_response (tables E) RuleEngine.rule_engine message in
  if negb (RuleEngine.is_fallback rule_response) then
    save_and_respond conversation message
      (Some (rule_response_data rule_response))
  else if ChatRequest.use_ai request_data && Client.use_ai client then
    let! allowed :=
      GeminiService.check_rate_limit E (ChatRequest.client_id request_data) in
    if negb allowed then
      ret (ChatResponse.fallback QUOTA_REPLY)
    else
      let! knowledge_base :=
        get_knowledge_texts E (ChatRequest.client_id request_data) in
      let! response_data :=
        GeminiService.get_response E message
          (ChatRequest.client_id request_data)
          knowledge_base conversation_history
          {| ClientInfo.company_name := Client.company_name client;
             ClientInfo.website_url := Client.website_url client |} in
      save_and_respond conversation message (Some response_data)
  else
    save_and_respond conversation message None
  end
  end.

(** [except HTTPException: raise] and [except Exception: ...] *)
Definition chat (request_data : ChatRequest.t) : M ChatResponse.t :=
  fun w =>
    match chat_body request_data w with
    | Return response w' => Return response w'
    | Raise (HTTPException status_code detail) w' =>
        Raise (HTTPException status_code detail) w'
    | Raise _ w' => Return (ChatResponse.fallback ERROR_REPLY) w'
    end.
End Endpoint.

End Chat.

(** ** [app/core/config.py] *)
Module Settings.
Record t := {
  APP_NAME : pystr;
  ENVIRONMENT : pystr;
  PORT : Z;
  DEBUG : bool;
  DATABASE_URL : pystr;
  GEMINI_API_KEY : pystr;
  USE_AI_FALLBACK : bool;
  MAX_AI_REQUESTS_PER_DAY : Z;
  MAX_PAGES_TO_CRAWL : Z;
  CRAWL_TIMEOUT_SECONDS : Z;
  USER_AGENT : pystr;
  DATA_RETENTION_DAYS : Z;
  LEAD_ENCRYPTION_KEY : option pystr;
  RATE_LIMIT_PER_MINUTE : Z;
  RATE_LIMIT_PER_HOUR : Z;
  SMTP_HOST : option pystr;
  SMTP_PORT : Z;
  SMTP_USER : option pystr;
  SMTP_PASSWORD : option pystr;
  SMTP_FROM_EMAIL : option pystr;
  WEBHOOK_SECRET : option pystr;
  SECRET_KEY : pystr;
  ALLOWED_HOSTS : list pystr;
  LOG_LEVEL : pystr;
  LOG_FORMAT : pystr;
  WIDGET_URL : pystr
}.

(** The defaults of the class, which hold when the environment sets
    nothing. *)
Definition defaults : t :=
  {| APP_NAME := py "DinChatbot";
     ENVIRONMENT := py "development";
     PORT := 8000;
     DEBUG := true;
     DATABASE_URL := py "sqlite:///./chatbot.db";
     GEMINI_API_KEY := [];
     USE_AI_FALLBACK := true;
     MAX_AI_REQUESTS_PER_DAY := 1000;
     MAX_PAGES_TO_CRAWL := 20;
     CRAWL_TIMEOUT_SECONDS := 10;
     USER_AGENT := py "DinChatbot-Trainer/2.0";
     DATA_RETENTION_DAYS := 90;
     LEAD_ENCRYPTION_KEY := None;
     RATE_LIMIT_PER_MINUTE := 60;
     RATE_LIMIT_PER_HOUR := 1000;
     SMTP_HOST := None;
     SMTP_PORT := 587;
     SMTP_USER := None;
     SMTP_PASSWORD := None;
     SMTP_FROM_EMAIL := None;
     WEBHOOK_SECRET := None;
     SECRET_KEY := py "change-this-in-production";
     ALLOWED_HOSTS := [py "*"];
     LOG_LEVEL := py "INFO";
     LOG_FORMAT := py "json";
     WIDGET_URL := py "http://localhost:8000/widget.js" |}.

(** [settings.USE_AI_FALLBACK = value] *)
Definition set_USE_AI_FALLBACK (value : bool) (s : t) : t :=
  {| APP_NAME := APP_NAME s;
     ENVIRONMENT := ENVIRONMENT s;
     PORT := PORT s;
     DEBUG := DEBUG s;
     DATABASE_URL := DATABASE_URL s;
     GEMINI_API_KEY := GEMINI_API_KEY s;
     USE_AI_FALLBACK := value;
     MAX_AI_REQUESTS_PER_DAY := MAX_AI_REQUESTS_PER_DAY s;
     MAX_PAGES_TO_CRAWL := MAX_PAGES_TO_CRAWL s;
     CRAWL_TIMEOUT_SECONDS := CRAWL_TIMEOUT_SECONDS s;
     USER_AGENT := USER_AGENT s;
     DATA_RETENTION_DAYS := DATA_RETENTION_DAYS s;
     LEAD_ENCRYPTION_KEY := LEAD_ENCRYPTION_KEY s;
     RATE_LIMIT_PER_MINUTE := RATE_LIMIT_PER_MINUTE s;
     RATE_LIMIT_PER_HOUR := RATE_LIMIT_PER_HOUR s;
     SMTP_HOST := SMTP_HOST s;
     SMTP_PORT := SMTP_PORT s;
     SMTP_USER := SMTP_USER s;
     SMTP_PASSWORD := SMTP_PASSWORD s;
     SMTP_FROM_EMAIL := SMTP_FROM_EMAIL s;
     WEBHOOK_SECRET := WEBHOOK_SECRET s;
     SECRET_KEY := SECRET_KEY s;
     ALLOWED_HOSTS := ALLOWED_HOSTS s;
     LOG_LEVEL := LOG_LEVEL s;
     LOG_FORMAT := LOG_FORMAT s;
     WIDGET_URL := WIDGET_URL s |}.
End Settings.

Module Config.

(** [s.startswith(prefix)] *)
Definition startswith (prefix s : pystr) : bool :=
  pystr_eqb (firstn (length prefix) s) prefix.

Definition KEY_WARNING : list pystr :=
  [py "⚠️  WARNING: GEMINI_API_KEY not set - AI fallback disabled";
   py "   Get a FREE API key: https://makersuite.google.com/app/apikey"].

Definition SQLITE_WARNING : list pystr :=
  [py "⚠️  WARNING: SQLite not recommended for production";
   py "   Use PostgreSQL instead"].

Definition SECRET_KEY_ERROR : pystr :=
  py "SECRET_KEY must be changed in production".

(** What a run of [validate_settings] leaves: the global [settings]
    object, the lines printed, and the message of the [ValueError]
    raised, if one is. *)
Record validation := {
  settings_after : Settings.t;
  printed : list pystr;
  raised : option pystr
}.

Definition validate_settings (settings : Settings.t) : validation :=
  let errors : list pystr := [] in
  let '(settings, printed) :=
    match Settings.GEMINI_API_KEY settings with
    | [] => (Settings.set_USE_AI_FALLBACK false settings, KEY_WARNING)
    | _ => (settings, [])
    end in
  let '(errors, printed) :=
    if pystr_eqb (Settings.ENVIRONMENT settings) (py "production") then
      let errors :=
        if pystr_eqb (Settings.SECRET_KEY settings)
             (py "change-this-in-production")
        then errors ++ [SECRET_KEY_ERROR] else errors in
      let printed :=
        if startswith (py "sqlite") (Settings.DATABASE_URL settings)
        then printed ++ SQLITE_WARNING else printed in
      (errors, printed)
    else (errors, printed) in
  {| settings_after := settings;
     printed := printed;
     raised :=
       match errors with
       | [] => None
       | _ => Some (py "Configuration errors: " ++ join (py ", ") errors)
       end |}.

(** The last lines of the module: validation runs on import unless
    the environment variable [TESTING] is "true". *)
Definition on_import (TESTING : option pystr) (settings : Settings.t)
  : validation :=
  let skipped :=
    match TESTING with
    | Some value => pystr_eqb value (py "true")
    | None => false
    end in
  if skipped
  then {| settings_after := settings; printed := []; raised := None |}
  else validate_settings settings.

End Config.

(** ** Observations on a run *)

(** The usage counter of a tenant, as stored. *)
Definition requests_used_today (client_id : pystr) (d : DB) : option Z :=
  Client.ai_requests_today <$> (clients d !! client_id).

Definition is_send_message (ev : Event) : bool :=
  match ev with SendMessage _ _ => true | _ => false end.

(** The number of calls made to the Gemini model. *)
Definition ai_calls (w : World) : nat :=
  length (List.filter is_send_message (trace w)).

(** What a run from [w] to [w'] added to the record. *)
Definition events_since (w w' : World) : list Event :=
  skipn (length (trace w)) (trace w').

(** The database answers the statements [ops]. *)
Definition answers (E : Env) (ops : list StoreOp) : Prop :=
  Forall (fun op => storage_fails E op = false) ops.

(** ** A concrete world for the examples *)
Module Demo.
Definition kunde1 : Client.t :=
  {| Client.company_name := py "Kunde 1 ApS";
     Client.website_url := Some (py "https://kunde1.example.dk");
     Client.is_active := true;
     Client.use_ai := true;
     Client.ai_requests_today := 0;
     Client.ai_requests_limit := 1 |}.

Definition db0 : DB :=
  {| clients := {[ py "kunde1" := kunde1 ]};
     conversations := [];
     messages := [] |}.

Definition w0 : World := {| db := db0; trace := [] |}.

Definition env (fails : StoreOp -> bool) (kb : list pystr)
    (ai : option pystr) : Env :=
  {| tables := latin1;
     storage_fails := fails;
     knowledge_texts := fun _ _ => kb;
     send_message := fun _ _ => ai;
     assistant_row_first := false |}.

Definition request (message : string) : ChatRequest.t :=
  {| ChatRequest.message := py message;
     ChatRequest.client_id := py "kunde1";
     ChatRequest.session_id := py "s1";
     ChatRequest.use_ai := true |}.
End Demo.

(** * The properties stated *)

Section CatalogOrderSpec.
Import RuleEngine.

Definition by_priority_desc (a b : Intent) : Prop :=
  (priority b <= priority a)%Z.

(** The first element of [l] in (priority descending, position
    ascending) order among those that satisfy [p]. *)
Fixpoint first_by_priority (p : Intent -> bool) (l : list Intent)
  : option Intent :=
  match l with
  | [] => None
  | x :: l' =>
      if p x then
        match first_by_priority p l' with
        | Some y => if (priority x <? priority y)%Z then Some y else Some x
        | None => Some x
        end
      else first_by_priority p l'
  end.

(** [it], at position [i] of [l], is the first in (priority
    descending, position ascending) order among the elements that
    satisfy [p]. *)
Definition first_in_order (p : Intent -> bool) (l : list Intent)
    (i : nat) (it : Intent) : Prop :=
  l !! i = Some it /\ p it = true /\
  forall j jt, l !! j = Some jt -> p jt = true ->
    (priority jt < priority it)%Z \/ (priority jt = priority it /\ (i <= j)%nat).

End CatalogOrderSpec.

Section WholeWordSpec.
Variable T : CharTables.

(** The character before the position reached by reading [l] from a
    position that [prev] precedes. *)
Definition last_or (prev : option char) (l : pystr) : option char :=
  match last l with Some c => Some c | None => prev end.

(** [kw] occurs in [msg] with a string edge or a non-word character
    on either side. *)
Definition whole_word_occurrence (kw msg : pystr) : Prop :=
  exists pre post, msg = pre ++ kw ++ post
    /\ word_at T (last pre) = false /\ word_at T (head post) = false.

End WholeWordSpec.

(** The keywords of the catalog, and what whole-word matching needs of
    a keyword: Latin-1 characters, lower case, a word character at both
    ends. *)
Definition catalog_keywords : list pystr :=
  concat (List.map RuleEngine.keywords RuleEngine.intent_definitions).

Definition keyword_ok (kw : pystr) : bool :=
  forallb (fun c => c <? 256) kw
  && pystr_eqb (List.map latin1_lower_char kw) kw
  && word_at latin1 (head kw) && word_at latin1 (last kw).

Definition booking : RuleEngine.Intent :=
  {| RuleEngine.name := py "booking";
     RuleEngine.keywords := List.map py [
       "book"; "booking"; "bestil"; "aftale"; "reservation";
       "tid"; "book en tid"; "reservere"; "time"; "bestille" ]%string;
     RuleEngine.response_template :=
       py "Du kan booke en tid via vores hjemmeside eller ringe til os.";
     RuleEngine.priority := 2 |}.

(** The canned replies of the fallbacks. *)
Definition FALLBACK_REPLIES : list pystr :=
  [Chat.EMPTY_REPLY; Chat.TOO_LONG_REPLY; Chat.QUOTA_REPLY;
   GeminiService.AI_ERROR_REPLY; Chat.FINAL_FALLBACK_REPLY; Chat.ERROR_REPLY].

(** What every response of [chat] satisfies. *)
Definition response_consistent (r : ChatResponse.t) : Prop :=
  (ChatResponse.is_fallback r = true <-> ChatResponse.intent r = None)
  /\ (ChatResponse.tokens_used r <> None ->
      ChatResponse.is_fallback r = false /\ ChatResponse.is_ai r = true
      /\ ChatResponse.intent r = Some (py "ai_response"))
  /\ (ChatResponse.is_fallback r = true ->
      ChatResponse.is_ai r = false
      /\ ChatResponse.tokens_used r = None
      /\ ChatResponse.reply r ∈ FALLBACK_REPLIES)
  /\ (ChatResponse.is_fallback r = false ->
      (ChatResponse.is_ai r = true
       /\ ChatResponse.intent r = Some (py "ai_response")
       /\ ChatResponse.tokens_used r <> None)
      \/ (ChatResponse.is_ai r = false
          /\ ChatResponse.tokens_used r = None
          /\ exists i, In i RuleEngine.intent_definitions
               /\ ChatResponse.intent r = Some (RuleEngine.name i)
               /\ ChatResponse.reply r = RuleEngine.response_template i)).

Definition ai_error_data : ResponseData.t :=
  {| ResponseData.reply := GeminiService.AI_ERROR_REPLY;
     ResponseData.intent := None;
     ResponseData.is_ai := Some false;
     ResponseData.is_fallback := true;
     ResponseData.tokens_used := None |}.

Section StripSpec.
Variable T : CharTables.

Definition whitespace_only (s : pystr) : Prop :=
  Forall (fun c => is_space T c = true) s.

Definition space_at (c : option char) : bool :=
  match c with Some c => is_space T c | None => false end.

(** No whitespace at either end. *)
Definition trimmed (s : pystr) : Prop :=
  space_at (head s) = false /\ space_at (last s) = false.

End StripSpec.

Definition padded_long_message : ChatRequest.t :=
  {| ChatRequest.message := repeat 97 1001 ++ [SPACE];
     ChatRequest.client_id := py "kunde1";
     ChatRequest.session_id := py "s1";
     ChatRequest.use_ai := true |}.

(** Validate lets the message through. *)
Definition valid_message (E : Env) (rq : ChatRequest.t) : Prop :=
  strip (tables E) (ChatRequest.message rq) <> []
  /\ (length (strip (tables E) (ChatRequest.message rq)) <= 1000)%nat.

(** A message of 1001 characters: 1000 letters and a space. *)
Definition padded_message : ChatRequest.t :=
  {| ChatRequest.message := repeat 97 1000 ++ [SPACE];
     ChatRequest.client_id := py "kunde1";
     ChatRequest.session_id := py "s1";
     ChatRequest.use_ai := true |}.

(** What the claim states of long messages: every message longer than
    1000 characters ends in Validate with the "too long" reply. *)
Definition over_length_is_rejected : Prop :=
  forall E rq w,
    (1000 < length (ChatRequest.message rq))%nat ->
    Chat.chat E rq w = Return (ChatResponse.fallback Chat.TOO_LONG_REPLY) w.

Definition NOT_FOUND : exn := HTTPException 404 (py "Client not found").
Definition NOT_ACTIVE : exn := HTTPException 403 (py "Client is not active").

Definition propagation_spec (E : Env) (rq : ChatRequest.t) (w : World)
    (o : outcome ChatResponse.t) : Prop :=
  (forall e w', o = Raise e w' ->
     valid_message E rq /\ storage_fails E SelectClient = false
     /\ ((e = NOT_FOUND
          /\ clients (db w) !! ChatRequest.client_id rq = None)
         \/ (e = NOT_ACTIVE
             /\ exists c, clients (db w) !! ChatRequest.client_id rq = Some c
                  /\ Client.is_active c = false)))
  /\ (forall op, Store op ∈ events_since w (final_world o) ->
        storage_fails E op = true ->
        o = Return (ChatResponse.fallback Chat.ERROR_REPLY) (final_world o)).

Definition unknown_client_request : ChatRequest.t :=
  {| ChatRequest.message := py "hej";
     ChatRequest.client_id := py "ukendt";
     ChatRequest.session_id := py "s1";
     ChatRequest.use_ai := true |}.

Definition fails_on (failing : StoreOp) (op : StoreOp) : bool :=
  match failing, op with
  | SelectClient, SelectClient | SelectConversation, SelectConversation
  | InsertConversation, InsertConversation | SelectMessages, SelectMessages
  | SelectUsage, SelectUsage | UpdateUsage, UpdateUsage
  | SelectKnowledge, SelectKnowledge | InsertMessages, InsertMessages => true
  | _, _ => false
  end.

(** The counter of the tenant went up by exactly one. *)
Definition consumed_once (client_id : pystr) (w w' : World) : Prop :=
  exists n, requests_used_today client_id (db w) = Some n
    /\ requests_used_today client_id (db w') = Some (n + 1)%Z.

(** No row of [clients], so no counter, was written. *)
Definition usage_untouched (w w' : World) : Prop :=
  clients (db w') = clients (db w).

(** ** Failure of the history or knowledge store *)
Definition context_failure_spec (E : Env) (rq : ChatRequest.t) (w : World)
    (o : outcome ChatResponse.t) : Prop :=
  forall op, op = SelectMessages \/ op = SelectKnowledge ->
    Store op ∈ events_since w (final_world o) ->
    storage_fails E op = true ->
    o = Return (ChatResponse.fallback Chat.ERROR_REPLY) (final_world o)
    /\ ai_calls (final_world o) = ai_calls w
    /\ messages (db (final_world o)) = messages (db w)
    /\ (op = SelectMessages -> usage_untouched w (final_world o))
    /\ (op = SelectKnowledge ->
        consumed_once (ChatRequest.client_id rq) w (final_world o)).





Definition gibberish : ChatRequest.t :=
  Demo.request "xyz completely unmatched gibberish".

(** What the spec asks of the orchestrator: a request on which the
    history or the knowledge store fails still reaches the model. *)
Definition proceeds_with_empty_context : Prop :=
  forall E rq w op,
    op = SelectMessages \/ op = SelectKnowledge ->
    Store op ∈ events_since w (final_world (Chat.chat E rq w)) ->
    storage_fails E op = true ->
    ai_calls (final_world (Chat.chat E rq w)) = S (ai_calls w).

(** No rule matches the message, AI is enabled on both sides, the
    quota of the tenant is used up; the database answers up to the
    gate. *)
Definition gate_denies (E : Env) (rq : ChatRequest.t) (w : World)
    (c : Client.t) : Prop :=
  valid_message E rq
  /\ clients (db w) !! ChatRequest.client_id rq = Some c
  /\ Client.is_active c = true
  /\ RuleEngine._match_intent (tables E) RuleEngine.rule_engine
       (RuleEngine._normalize (tables E)
          (strip (tables E) (ChatRequest.message rq))) = None
  /\ ChatRequest.use_ai rq = true
  /\ Client.use_ai c = true
  /\ (Client.ai_requests_today c >= Client.ai_requests_limit c)%Z
  /\ answers E [SelectClient; SelectConversation; InsertConversation;
                SelectMessages; SelectUsage].

(** The statements that assemble the context of the model. *)
Definition context_read (w w' : World) : Prop :=
  Store SelectMessages ∈ events_since w w'
  \/ Store SelectKnowledge ∈ events_since w w'.

Module DemoFull.
(** The tenant of [Demo] with its quota used up. *)
Definition w0 : World :=
  {| db := set_clients
             (insert (py "kunde1") (Client.with_ai_requests_today 1 Demo.kunde1))
             Demo.db0;
     trace := [] |}.

End DemoFull.

(** What the claim states: on a denied gate nothing of the context is
    assembled. *)
Definition denied_gate_reads_no_context : Prop :=
  forall E rq w c, gate_denies E rq w c ->
    ~ context_read w (final_world (Chat.chat E rq w)).

(** The line that heads the [i]-th knowledge text. *)
Definition source_header (i : nat) : pystr :=
  py "--- Side " ++ str_of_nat (i + 1) ++ py " ---" ++ [NEWLINE].

(** The conversation of the request: the stored one of its session, or
    the one the request creates. *)
Definition conversation_id_of (rq : ChatRequest.t) (d : DB) : nat :=
  match List.find (fun c => pystr_eqb (Conversation.session_id c)
                              (ChatRequest.session_id rq))
          (conversations d) with
  | Some conversation => Conversation.id conversation
  | None => next_conversation_id d
  end.

(** The stored turns of the conversation of the request, oldest
    first. *)
Definition stored_turns (rq : ChatRequest.t) (d : DB) : list Turn.t :=
  List.map Chat.history_turn (messages_of (conversation_id_of rq d) d).

Definition context_spec (E : Env) (rq : ChatRequest.t) (w : World)
    (o : outcome ChatResponse.t) : Prop :=
  forall h p, SendMessage h p ∈ events_since w (final_world o) ->
    exists c d,
      clients (db w) !! ChatRequest.client_id rq = Some c
      /\ h = GeminiService.build_chat_history
               (List.map Chat.history_turn
                  (List.rev (firstn 10 (List.rev
                     (messages_of (conversation_id_of rq (db w)) (db w))))))
      /\ p = GeminiService.build_full_prompt
               (GeminiService._build_system_prompt (ChatRequest.client_id rq)
                  (knowledge_texts E (ChatRequest.client_id rq) d)
                  {| ClientInfo.company_name := Client.company_name c;
                     ClientInfo.website_url := Client.website_url c |})
               (strip (tables E) (ChatRequest.message rq)).

Module DemoLong.
(** A conversation of 12 stored turns and a knowledge base of 12
    texts. *)
Definition turn (n : nat) : Message.t :=
  {| Message.conversation_id := 1;
     Message.role := if Nat.even n then py "user" else py "assistant";
     Message.content := py "besked " ++ str_of_nat n;
     Message.intent := None;
     Message.is_ai := false;
     Message.tokens_used := None |}.

Definition w0 : World :=
  {| db := {| clients := {[ py "kunde1" := Demo.kunde1 ]};
              conversations :=
                [{| Conversation.id := 1;
                    Conversation.client_id := py "kunde1";
                    Conversation.session_id := py "s1" |}];
              messages := List.map turn (seq 0 12) |};
     trace := [] |}.

Definition env : Env :=
  Demo.env (fun _ => false)
    (List.map (fun n => py "viden " ++ str_of_nat n) (seq 0 12))
    (Some (py "Her er svaret")).

Definition forwarded : list Gemini.turn :=
  List.map (fun n => GeminiService.gemini_turn (Chat.history_turn (turn n)))
    (seq 7 5).

End DemoLong.

(** ** The normalised message *)

(** A word of a normalised message: not empty, made of word characters
    that are not whitespace. *)
Definition is_token (T : CharTables) (w : pystr) : Prop :=
  w <> [] /\ Forall (fun c => is_word T c = true /\ is_space T c = false) w.

(** The response of the rule engine when no intent matches. *)
Definition no_match_response : RuleEngine.Response :=
  {| RuleEngine.reply := RuleEngine.FALLBACK_REPLY;
     RuleEngine.intent := None;
     RuleEngine.is_fallback := true |}.

(** The code points of the Latin-1 range. *)
Definition latin1_range : list char := List.map N.of_nat (seq 0 256).

(** Lower-casing never turns a string without word characters into one
    that has some. *)
Definition lower_keeps_non_words (T : CharTables) : Prop :=
  forall s,
    Forall (fun c => is_word T c = false) s ->
    Forall (fun c => is_word T c = false) (lower T s).

(** Two Latin-1 strings that are the same up to the case of their
    letters, character by character. *)
Definition case_variants (s' s : pystr) : Prop :=
  Forall2 (fun a b => latin1_lower_char a = latin1_lower_char b) s' s.

(** ** The usage gate, call after call *)

(** [k] calls to [check_rate_limit] in a row, for one tenant; the
    answers in the order of the calls. *)
Fixpoint gate_calls (E : Env) (client_id : pystr) (k : nat) : M (list bool) :=
  match k with
  | O => ret []
  | S k' =>
      let! allowed := GeminiService.check_rate_limit E client_id in
      let! rest := gate_calls E client_id k' in
      ret (allowed :: rest)
  end.

(** What is left of the quota of a tenant. *)
Definition quota_left (c : Client.t) : nat :=
  Z.to_nat (Client.ai_requests_limit c - Client.ai_requests_today c).

(** ** What a request leaves in the database *)


(** The two rows that [chat] adds for a turn (lines 172-184). *)
Definition user_message (conversation_id : nat) (content : pystr) : Message.t :=
  {| Message.conversation_id := conversation_id;
     Message.role := py "user";
     Message.content := content;
     Message.intent := None;
     Message.is_ai := false;
     Message.tokens_used := None |}.

Definition bot_message (conversation_id : nat) (r : ChatResponse.t) : Message.t :=
  {| Message.conversation_id := conversation_id;
     Message.role := py "assistant";
     Message.content := ChatResponse.reply r;
     Message.intent := ChatResponse.intent r;
     Message.is_ai := ChatResponse.is_ai r;
     Message.tokens_used := ChatResponse.tokens_used r |}.

(** The stored conversation of the session of the request. *)
Definition session_conversation (rq : ChatRequest.t) (d : DB)
  : option Conversation.t :=
  List.find (fun c => pystr_eqb (Conversation.session_id c)
                        (ChatRequest.session_id rq))
    (conversations d).

(** The row that [chat] adds for a new session (lines 93-96). *)
Definition new_conversation (rq : ChatRequest.t) (d : DB) : Conversation.t :=
  {| Conversation.id := next_conversation_id d;
     Conversation.client_id := ChatRequest.client_id rq;
     Conversation.session_id := ChatRequest.session_id rq |}.

(** The replies of the paths that return before the turn is saved, or
    after saving it failed. *)
Definition UNSAVED_REPLIES : list pystr :=
  [Chat.EMPTY_REPLY; Chat.TOO_LONG_REPLY; Chat.QUOTA_REPLY; Chat.ERROR_REPLY].

(** The fallback replies that are saved as a turn. *)
Definition SAVED_FALLBACK_REPLIES : list pystr :=
  [GeminiService.AI_ERROR_REPLY; Chat.FINAL_FALLBACK_REPLY].

Definition persistence_spec (E : Env) (rq : ChatRequest.t) (w : World)
    (o : outcome ChatResponse.t) : Prop :=
  let w' := final_world o in
  let message := strip (tables E) (ChatRequest.message rq) in
  let cid := conversation_id_of rq (db w) in
  (conversations (db w') = conversations (db w)
   \/ (session_conversation rq (db w) = None
       /\ conversations (db w')
          = conversations (db w) ++ [new_conversation rq (db w)]))
  /\ ((messages (db w') = messages (db w)
       /\ forall r, o = Return r w' ->
            ChatResponse.is_fallback r = true
            /\ ChatResponse.reply r ∈ UNSAVED_REPLIES)
      \/ (exists r,
            o = Return r w'
            /\ valid_message E rq
            /\ messages (db w')
               = messages (db w)
                 ++ Chat.in_created_at_order E
                      (user_message cid message) (bot_message cid r)
            /\ (ChatResponse.is_fallback r = false
                \/ (ChatResponse.is_fallback r = true
                    /\ ChatResponse.reply r ∈ SAVED_FALLBACK_REPLIES)))).

(** AI is switched off for the request: by the request itself or by
    the settings of the tenant. *)
Definition ai_disabled (rq : ChatRequest.t) (w : World) : Prop :=
  ChatRequest.use_ai rq = false
  \/ exists c, clients (db w) !! ChatRequest.client_id rq = Some c
       /\ Client.use_ai c = false.

(** ** The order of the statements of a request *)

(** What an event is: a statement to the database, or ([None]) a call
    to the model. *)
Definition event_kind (ev : Event) : option StoreOp :=
  match ev with Store op => Some op | SendMessage _ _ => None end.

(** Everything a request can ask of the outside, in the order of the
    code. *)
Definition PROTOCOL : list (option StoreOp) :=
  [Some SelectClient; Some SelectConversation; Some InsertConversation;
   Some SelectMessages; Some SelectUsage; Some UpdateUsage;
   Some SelectKnowledge; None; Some InsertMessages].

(** The statements that have answered whenever the model is called. *)
Definition BEFORE_THE_MODEL : list StoreOp :=
  [SelectClient; SelectConversation; SelectMessages; SelectUsage;
   UpdateUsage; SelectKnowledge].

Definition protocol_spec (E : Env) (w : World) (o : outcome ChatResponse.t)
  : Prop :=
  let evs := events_since w (final_world o) in
  sublist (List.map event_kind evs) PROTOCOL
  /\ (ai_calls (final_world o) = S (ai_calls w) ->
      Forall (fun op => Store op ∈ evs /\ storage_fails E op = false)
        BEFORE_THE_MODEL).

(** A request that opts out of AI and that no rule matches. *)
Definition quiet_request : ChatRequest.t :=
  {| ChatRequest.message := py "xyz completely unmatched gibberish";
     ChatRequest.client_id := py "kunde1";
     ChatRequest.session_id := py "s1";
     ChatRequest.use_ai := false |}.

(** An environment in which everything answers and the database puts
    the assistant's row of a turn before the user's. *)
Definition assistant_first_env : Env :=
  {| tables := latin1;
     storage_fails := fun _ => false;
     knowledge_texts := fun _ _ => [];
     send_message := fun _ _ => Some (py "Her er svaret");
     assistant_row_first := true |}.

(** ** The configuration *)

(** The settings ask for production. *)
Definition in_production (s : Settings.t) : Prop :=
  Settings.ENVIRONMENT s = py "production".

Definition default_secret (s : Settings.t) : Prop :=
  Settings.SECRET_KEY s = py "change-this-in-production".

Definition production_settings : Settings.t :=
  {| Settings.APP_NAME := py "DinChatbot";
     Settings.ENVIRONMENT := py "production";
     Settings.PORT := 8000;
     Settings.DEBUG := false;
     Settings.DATABASE_URL := py "sqlite:///./chatbot.db";
     Settings.GEMINI_API_KEY := py "k";
     Settings.USE_AI_FALLBACK := true;
     Settings.MAX_AI_REQUESTS_PER_DAY := 1000;
     Settings.MAX_PAGES_TO_CRAWL := 20;
     Settings.CRAWL_TIMEOUT_SECONDS := 10;
     Settings.USER_AGENT := py "DinChatbot-Trainer/2.0";
     Settings.DATA_RETENTION_DAYS := 90;
     Settings.LEAD_ENCRYPTION_KEY := None;
     Settings.RATE_LIMIT_PER_MINUTE := 60;
     Settings.RATE_LIMIT_PER_HOUR := 1000;
     Settings.SMTP_HOST := None;
     Settings.SMTP_PORT := 587;
     Settings.SMTP_USER := None;
     Settings.SMTP_PASSWORD := None;
     Settings.SMTP_FROM_EMAIL := None;
     Settings.WEBHOOK_SECRET := None;
     Settings.SECRET_KEY := py "change-this-in-production";
     Settings.ALLOWED_HOSTS := [py "*"];
     Settings.LOG_LEVEL := py "INFO";
     Settings.LOG_FORMAT := py "json";
     Settings.WIDGET_URL := py "http://localhost:8000/widget.js" |}.

(** * Proofs *)

(** ** The catalog order *)

Section CatalogOrder.
Import RuleEngine.

Lemma insert_desc_perm x l : insert_desc x l ≡ₚ x :: l.
Proof.
  induction l as [|y l IH]; simpl; [done|].
  destruct (priority x <? priority y)%Z; [|done].
  rewrite IH. apply perm_swap.
Qed.

Lemma sort_desc_perm l : sort_desc l ≡ₚ l.
Proof.
  induction l as [|x l IH]; simpl; [done|].
  by rewrite insert_desc_perm, IH.
Qed.

Lemma insert_desc_sorted x l :
  StronglySorted by_priority_desc l ->
  StronglySorted by_priority_desc (insert_desc x l).
Proof.
  induction 1 as [|y l Hs IH Hy]; simpl.
  - repeat constructor.
  - destruct (priority x <? priority y)%Z eqn:Hxy.
    + constructor; [done|].
      rewrite insert_desc_perm. constructor; [|done].
      unfold by_priority_desc. lia.
    + constructor; [by constructor|].
      constructor; [unfold by_priority_desc; lia|].
      eapply Forall_impl; [exact Hy|].
      unfold by_priority_desc. intros; lia.
Qed.

Lemma sort_desc_sorted l : StronglySorted by_priority_desc (sort_desc l).
Proof.
  induction l; simpl; [constructor|by apply insert_desc_sorted].
Qed.

(** Stability: among the intents of one priority the definition
    order is kept. *)
Lemma insert_desc_stable p x l :
  List.filter (fun i => (priority i =? p)%Z) (insert_desc x l)
  = List.filter (fun i => (priority i =? p)%Z) (x :: l).
Proof.
  induction l as [|y l IH]; [done|].
  simpl insert_desc. destruct (priority x <? priority y)%Z eqn:Hxy; [|done].
  simpl in *. rewrite IH.
  destruct (priority x =? p)%Z eqn:Hx, (priority y =? p)%Z eqn:Hy; try done.
  lia.
Qed.

Lemma sort_desc_stable p l :
  List.filter (fun i => (priority i =? p)%Z) (sort_desc l)
  = List.filter (fun i => (priority i =? p)%Z) l.
Proof.
  induction l as [|x l IH]; [done|].
  simpl sort_desc. rewrite insert_desc_stable. simpl. by rewrite IH.
Qed.

Lemma find_some_in (p : Intent -> bool) l x :
  List.find p l = Some x -> x ∈ l /\ p x = true.
Proof.
  intros H. apply find_some in H as [H1 H2].
  by rewrite list_elem_of_In.
Qed.

Lemma find_insert_desc p x l :
  StronglySorted by_priority_desc l ->
  List.find p (insert_desc x l) =
    if p x then
      match List.find p l with
      | Some y => if (priority x <? priority y)%Z then Some y else Some x
      | None => Some x
      end
    else List.find p l.
Proof.
  induction 1 as [|y l Hs IH Hy]; simpl.
  - by destruct (p x).
  - destruct (priority x <? priority y)%Z eqn:Hxy; simpl.
    + rewrite IH. destruct (p x), (p y); try done. by rewrite Hxy.
    + destruct (p x) eqn:Hpx; [|done].
      destruct (p y) eqn:Hpy; [by rewrite Hxy|].
      destruct (List.find p l) as [z|] eqn:Hz; [|done].
      apply find_some_in in Hz as [Hz _].
      rewrite Forall_forall in Hy. specialize (Hy z Hz).
      unfold by_priority_desc in Hy.
      destruct (priority x <? priority z)%Z eqn:Hxz; [lia|done].
Qed.

Lemma find_sort_desc p l :
  List.find p (sort_desc l) = first_by_priority p l.
Proof.
  induction l as [|x l IH]; [done|].
  simpl. rewrite find_insert_desc by apply sort_desc_sorted.
  by rewrite IH.
Qed.

Lemma first_by_priority_none p l :
  first_by_priority p l = None -> forall x, x ∈ l -> p x = false.
Proof.
  induction l as [|z l IH]; simpl; intros Hf x Hx; [by inversion Hx|].
  destruct (p z) eqn:Hpz.
  - destruct (first_by_priority p l) as [y|];
      [destruct (priority z <? priority y)%Z|]; done.
  - inversion Hx; subst; eauto.
Qed.

Lemma first_by_priority_some p l it :
  first_by_priority p l = Some it -> exists i, first_in_order p l i it.
Proof.
  revert it. induction l as [|x l IH]; intros it; simpl; [done|].
  destruct (p x) eqn:Hpx.
  - destruct (first_by_priority p l) as [y|] eqn:Hf.
    + destruct (IH y eq_refl) as (i & Hi & Hpy & Hmin).
      destruct (priority x <? priority y)%Z eqn:Hxy; intros [= <-].
      * exists (S i)%nat. split_and!; [done..|].
        intros [|j] jt Hj Hpj; simpl in Hj.
        -- injection Hj as <-. left. lia.
        -- destruct (Hmin j jt Hj Hpj) as [?|[? ?]]; lia.
      * exists 0%nat. split_and!; [done..|].
        intros [|j] jt Hj Hpj; simpl in Hj.
        -- injection Hj as <-. right. lia.
        -- destruct (Hmin j jt Hj Hpj) as [?|[? ?]]; lia.
    + intros [= <-]. exists 0%nat. split_and!; [done..|].
      intros [|j] jt Hj Hpj; simpl in Hj.
      * injection Hj as <-. right. lia.
      * apply list_elem_of_lookup_2 in Hj.
        eapply first_by_priority_none in Hf; [|done]. congruence.
  - intros Hf. destruct (IH it Hf) as (i & Hi & Hpi & Hmin).
    exists (S i)%nat. split_and!; [done..|].
    intros [|j] jt Hj Hpj; simpl in Hj; [injection Hj as <-; congruence|].
    destruct (Hmin j jt Hj Hpj) as [?|[? ?]]; lia.
Qed.

Lemma first_in_order_unique p l i it i' it' :
  first_in_order p l i it -> first_in_order p l i' it' -> it = it'.
Proof.
  intros (Hi & Hp & Hmin) (Hi' & Hp' & Hmin').
  destruct (Hmin i' it' Hi' Hp') as [?|[? ?]],
           (Hmin' i it Hi Hp) as [?|[? ?]]; try lia.
  assert (i = i') as -> by lia. congruence.
Qed.

Lemma first_by_priority_iff p l it :
  first_by_priority p l = Some it <-> exists i, first_in_order p l i it.
Proof.
  split; [apply first_by_priority_some|].
  intros (i & Hfirst).
  destruct (first_by_priority p l) as [it'|] eqn:Hf.
  - apply first_by_priority_some in Hf as (i' & Hfirst').
    f_equal. eapply first_in_order_unique; eauto.
  - destruct Hfirst as (Hi & Hp & _).
    apply list_elem_of_lookup_2 in Hi.
    eapply first_by_priority_none in Hf; [|done]. congruence.
Qed.

End CatalogOrder.

(** ** Whole-word matching *)

Section WholeWord.
Variable T : CharTables.

Lemma last_or_cons prev c l : last_or prev (c :: l) = last_or (Some c) l.
Proof. unfold last_or. rewrite last_cons. by destruct (last l). Qed.

Lemma last_or_None l : last_or None l = last l.
Proof. unfold last_or. by destruct (last l). Qed.

Lemma match_here_literals kw rest prev s :
  match_here T (re_escape kw ++ rest) prev s = true <->
  exists post, s = kw ++ post
    /\ match_here T rest (last_or prev kw) post = true.
Proof.
  revert prev s. induction kw as [|c kw IH]; intros prev s; simpl.
  - split; [by exists s|by intros (post & -> & H)].
  - destruct s as [|c' s]; [split; [done|by intros (? & ? & ?)]|].
    rewrite andb_true_iff, N.eqb_eq, IH. split.
    + intros (-> & post & -> & H). exists post.
      by rewrite last_or_cons.
    + intros (post & [= -> ->] & H). split; [done|].
      exists post. by rewrite last_or_cons in H.
Qed.

Lemma search_from_iff pat prev s :
  search_from T pat prev s = true <->
  exists pre rest, s = pre ++ rest
    /\ match_here T pat (last_or prev pre) rest = true.
Proof.
  revert prev. induction s as [|c s IH]; intros prev; simpl.
  - rewrite orb_false_r. split.
    + intros H. by exists [], [].
    + intros (pre & rest & Hs & H).
      symmetry in Hs. apply app_eq_nil in Hs as [-> ->]. done.
  - rewrite orb_true_iff, IH. split.
    + intros [H|(pre & rest & -> & H)].
      * by exists [], (c :: s).
      * exists (c :: pre), rest. by rewrite last_or_cons.
    + intros ([|c' pre] & rest & Hs & H); simpl in Hs.
      * left. by subst rest.
      * right. injection Hs as -> ->. exists pre, rest.
        by rewrite last_or_cons in H.
Qed.

Lemma search_whole_word kw msg :
  word_at T (head kw) = true -> word_at T (last kw) = true ->
  re_search T (WORD_BOUNDARY ++ re_escape kw ++ WORD_BOUNDARY) msg = true
  <-> whole_word_occurrence T kw msg.
Proof.
  intros Hhd Hlast. unfold re_search, whole_word_occurrence.
  rewrite search_from_iff.
  assert (Hhead : forall post, word_at T (head (kw ++ post)) = true).
  { intros post. destruct kw; [done|exact Hhd]. }
  assert (Hlo : forall prev, word_at T (last_or prev kw) = true).
  { intros prev. unfold last_or. by destruct (last kw). }
  split.
  - intros (pre & rest & -> & H). simpl in H.
    apply andb_true_iff in H as [Hb H].
    apply match_here_literals in H as (post & -> & H). simpl in H.
    rewrite andb_true_r in H. unfold at_boundary in *.
    rewrite Hhead, last_or_None in Hb. rewrite Hlo in H.
    exists pre, post. split_and!; [done|..].
    + by destruct (word_at T (last pre)).
    + by destruct (word_at T (head post)).
  - intros (pre & post & -> & Hpre & Hpost).
    exists pre, (kw ++ post). split; [done|]. simpl.
    apply andb_true_iff. split.
    + unfold at_boundary. by rewrite Hhead, last_or_None, Hpre.
    + apply match_here_literals. exists post. split; [done|]. simpl.
      unfold at_boundary. by rewrite Hlo, Hpost.
Qed.

(** A keyword never matches inside a longer word. *)
Lemma whole_word_of_word kw msg :
  Forall (fun c => is_word T c = true) msg ->
  whole_word_occurrence T kw msg -> msg = kw.
Proof.
  intros Hmsg (pre & post & -> & Hpre & Hpost).
  rewrite !Forall_app in Hmsg. destruct Hmsg as (Hw1 & _ & Hw2).
  assert (pre = []) as ->.
  { destruct (last pre) as [c|] eqn:Hl; [|by apply last_None].
    apply last_Some in Hl as [l' ->].
    apply Forall_app in Hw1 as [_ Hc]. inversion Hc; subst.
    simpl in Hpre. congruence. }
  assert (post = []) as ->.
  { destruct post as [|c post]; [done|].
    inversion Hw2; subst. simpl in Hpost. congruence. }
  by rewrite app_nil_r.
Qed.

End WholeWord.

Lemma latin1_python : python_on_latin1 latin1.
Proof. split; [by intros|by intros]. Qed.

Lemma catalog_keywords_ok : forallb keyword_ok catalog_keywords = true.
Proof. vm_compute. reflexivity. Qed.

Lemma keyword_ok_python T kw :
  python_on_latin1 T -> keyword_ok kw = true ->
  lower T kw = kw /\ word_at T (head kw) = true /\ word_at T (last kw) = true.
Proof.
  intros [Hcls Hlow] Hok. unfold keyword_ok in Hok.
  repeat (apply andb_true_iff in Hok as [Hok ?]).
  rewrite forallb_forall in Hok.
  assert (Hlt : forall c, c ∈ kw -> c < 256).
  { intros c Hc. apply N.ltb_lt, Hok. by apply list_elem_of_In. }
  assert (Hin : in_latin1 kw) by by apply Forall_forall.
  assert (Hword : forall o : option char,
            (forall c, o = Some c -> c ∈ kw) ->
            word_at latin1 o = true -> word_at T o = true).
  { intros [c|] Hc Hw; [|done]. simpl in *.
    destruct (Hcls c) as [-> _]; [|done]. by apply Hlt, Hc. }
  split_and!.
  - rewrite (Hlow _ Hin). by eapply bool_decide_eq_true_1.
  - apply Hword; [|done]. intros c Hc. destruct kw; simplify_eq/=. left.
  - apply Hword; [|done]. intros c Hc.
    apply last_Some in Hc as [l' ->]. apply elem_of_app. right. left.
Qed.

Lemma catalog_keyword_ok it kw :
  In it RuleEngine.intent_definitions -> In kw (RuleEngine.keywords it) ->
  keyword_ok kw = true.
Proof.
  intros Hit Hkw.
  pose proof catalog_keywords_ok as H. rewrite forallb_forall in H.
  apply H. unfold catalog_keywords. apply in_concat.
  exists (RuleEngine.keywords it). split; [|done]. by apply in_map.
Qed.

(** C7. Keyword matching is whole-word only. For every keyword of the
    catalog and every message, under any character tables that agree
    with Python's on the Latin-1 range: the keyword matches exactly when
    it occurs in the message with a string edge or a non-word character
    on either side; it does not match a single word other than itself
    (so never a longer word that contains it); and the message
    "bookshelf" matches neither the booking intent nor any other. *)
Theorem keyword_match_is_whole_word (T : CharTables) :
  python_on_latin1 T ->
  (forall it kw msg,
     In it RuleEngine.intent_definitions -> In kw (RuleEngine.keywords it) ->
     (RuleEngine.keyword_matches T msg kw = true
      <-> whole_word_occurrence T kw msg)
     /\ (Forall (fun c => is_word T c = true) msg -> msg <> kw ->
         RuleEngine.keyword_matches T msg kw = false))
  /\ In booking RuleEngine.intent_definitions
  /\ RuleEngine._normalize latin1 (py "bookshelf") = py "bookshelf"
  /\ RuleEngine.intent_matches latin1 (py "bookshelf") booking = false
  /\ RuleEngine._match_intent latin1 RuleEngine.rule_engine (py "bookshelf") = None
  /\ RuleEngine.intent_matches latin1 (py "book") booking = true.
Proof.
  intros HT. split_and!; try (vm_compute; reflexivity).
  - intros it kw msg Hit Hkw.
    destruct (keyword_ok_python T kw HT (catalog_keyword_ok it kw Hit Hkw))
      as (Hlow & Hhd & Hlast).
    assert (Hiff : RuleEngine.keyword_matches T msg kw = true
                   <-> whole_word_occurrence T kw msg).
    { unfold RuleEngine.keyword_matches, RuleEngine.keyword_pattern.
      rewrite Hlow. by apply search_whole_word. }
    split; [done|]. intros Hword Hne.
    apply not_true_is_false. rewrite Hiff. intros Hocc.
    by apply Hne, (whole_word_of_word T).
  - vm_compute. tauto.
Qed.

Lemma keyword_match_is_whole_word_witness :
  RuleEngine.keyword_matches latin1 (py "kan jeg book en tid, tak") (py "book en tid") = true
  /\ RuleEngine.keyword_matches latin1 (py "bookshelf") (py "book") = false.
Proof.
  destruct (keyword_match_is_whole_word latin1 latin1_python) as [H _].
  split.
  - apply (H booking); [vm_compute; tauto..|].
    exists (py "kan jeg "), (py ", tak"). by vm_compute.
  - apply (H booking); [vm_compute; tauto| vm_compute; tauto | |done].
    repeat constructor.
Defined.

(** C3. The order among intents whose keywords a message contains. The
    catalog is sorted once, by [__init__]: the engine holds the
    definitions in (priority descending, definition order ascending)
    order. A call walks the list held by the engine as it stands and
    returns the first intent with a matching keyword. So the engine
    built from any definitions returns, for every message, the intent
    that is first in (priority descending, definition order ascending)
    order among those with a matching keyword. *)
Theorem match_intent_priority_then_definition_order
    (T : CharTables) (definitions : list RuleEngine.Intent) (msg : pystr) :
  let engine := RuleEngine.init definitions in
  (RuleEngine.intents engine ≡ₚ definitions
   /\ StronglySorted by_priority_desc (RuleEngine.intents engine)
   /\ forall p, List.filter (fun i => (RuleEngine.priority i =? p)%Z)
                  (RuleEngine.intents engine)
                = List.filter (fun i => (RuleEngine.priority i =? p)%Z)
                    definitions)
  /\ (forall (self : RuleEngine.t) before it after,
        RuleEngine.intents self = before ++ it :: after ->
        Forall (fun i => RuleEngine.intent_matches T msg i = false) before ->
        RuleEngine.intent_matches T msg it = true ->
        RuleEngine._match_intent T self msg = Some it)
  /\ (forall it,
        RuleEngine._match_intent T engine msg = Some it
        <-> exists i,
              first_in_order (RuleEngine.intent_matches T msg) definitions i it)
  /\ (RuleEngine._match_intent T engine msg = None
      <-> forall it, In it definitions ->
            RuleEngine.intent_matches T msg it = false).
Proof.
  simpl. split_and!.
  - apply sort_desc_perm.
  - apply sort_desc_sorted.
  - intros p. apply sort_desc_stable.
  - intros self before it after Hself Hbefore Hit.
    unfold RuleEngine._match_intent. rewrite Hself. clear Hself.
    induction Hbefore as [|x before Hx _ IH]; simpl; [by rewrite Hit|].
    by rewrite Hx.
  - intros it. unfold RuleEngine._match_intent. simpl.
    rewrite find_sort_desc. apply first_by_priority_iff.
  - unfold RuleEngine._match_intent. simpl. rewrite find_sort_desc. split.
    + intros H it Hit. eapply first_by_priority_none; [done|].
      by apply list_elem_of_In.
    + intros H.
      destruct (first_by_priority _ definitions) as [it|] eqn:Hf; [|done].
      apply first_by_priority_some in Hf as (i & Hi & Hp & _).
      apply list_elem_of_lookup_2, list_elem_of_In, H in Hi. congruence.
Qed.

(** ** Running the endpoint symbolically *)

(** The term on which a nest of matches blocks. *)
Ltac stuck_on t :=
  lazymatch t with
  | match ?x with _ => _ end => stuck_on x
  | (match ?x with _ => _ end) _ => stuck_on x
  | negb ?x => stuck_on x
  | andb ?x _ => stuck_on x
  | _ => t
  end.

Ltac run_unfold :=
  unfold Chat.chat, Chat.chat_body, Chat.save_and_respond,
    Chat.get_or_create_conversation, Chat.query_history,
    GeminiService.check_rate_limit, GeminiService.get_response,
    GeminiService.generate, get_knowledge_texts, query, commit,
    round_trip, log, bind, ret, raise.

Ltac run_simpl :=
  cbn [db trace clients conversations messages set_clients add_conversation
       add_all final_world negb andb default from_option id].

(** One branching point of the run: reuse what is known of the
    condition, or split on it. *)
Ltac run_step :=
  lazymatch goal with
  | |- context [match ?x with _ => _ end] =>
      let d := stuck_on x in
      first [ match goal with H : d = _ |- _ => rewrite H end
            | destruct d eqn:? ]
  end; run_simpl.

Ltac run_tidy :=
  repeat match goal with
    | H : negb _ = true |- _ => apply negb_true_iff in H
    | H : negb _ = false |- _ => apply negb_false_iff in H
    end.

Ltac run := run_unfold; run_simpl; repeat run_step; run_tidy.

(** The observations on the world a run ends in. *)
Lemma ai_calls_log w d ev :
  ai_calls {| db := d; trace := trace w ++ [ev] |}
  = (ai_calls w + if is_send_message ev then 1 else 0)%nat.
Proof.
  unfold ai_calls. cbn [trace]. rewrite List.filter_app, length_app.
  simpl. by destruct (is_send_message ev).
Qed.

Lemma ai_calls_db w d : ai_calls {| db := d; trace := trace w |} = ai_calls w.
Proof. done. Qed.

Lemma events_since_refl w d :
  events_since w {| db := d; trace := trace w |} = [].
Proof. unfold events_since. cbn [trace]. apply drop_all. Qed.

Lemma events_since_self w : events_since w w = [].
Proof. apply drop_all. Qed.

Lemma events_since_app w d evs :
  events_since w {| db := d; trace := trace w ++ evs |} = evs.
Proof. unfold events_since. cbn [trace]. apply drop_app_length. Qed.

(** Reflexivity, for terms that are the same as written. *)
Ltac same :=
  lazymatch goal with
  | |- ?a = ?b => constr_eq a b; reflexivity
  end.

Ltac observe :=
  cbn [final_world db trace clients conversations messages set_clients
       add_conversation add_all] in *;
  repeat rewrite <- (app_assoc (trace _)) in *;
  cbn [app] in *;
  rewrite ?events_since_app, ?events_since_refl, ?events_since_self in *;
  unfold ai_calls in *; cbn [trace] in *;
  rewrite ?List.filter_app, ?length_app in *;
  cbn [List.filter is_send_message length] in *.

Lemma rule_response_shape T self m :
  let r := RuleEngine.get_response T self m in
  (RuleEngine.is_fallback r = true /\ RuleEngine.intent r = None)
  \/ (RuleEngine.is_fallback r = false
      /\ exists i,
           RuleEngine._match_intent T self (RuleEngine._normalize T m) = Some i
           /\ RuleEngine.intent r = Some (RuleEngine.name i)
           /\ RuleEngine.reply r = RuleEngine.response_template i).
Proof.
  unfold RuleEngine.get_response. destruct m as [|c m]; [left; eauto|].
  destruct (RuleEngine._match_intent _ _ _) as [i|]; [right|left]; eauto.
Qed.

Lemma fallback_consistent reply :
  reply ∈ FALLBACK_REPLIES ->
  response_consistent (ChatResponse.fallback reply).
Proof.
  intros H. unfold response_consistent, ChatResponse.fallback.
  cbn [ChatResponse.is_fallback ChatResponse.intent ChatResponse.is_ai
       ChatResponse.tokens_used ChatResponse.reply].
  split_and!; [by split|intros []; reflexivity|by intros _|intros [=]].
Qed.

Lemma rule_hit_consistent T m :
  RuleEngine.is_fallback (RuleEngine.get_response T RuleEngine.rule_engine m)
    = false ->
  response_consistent (ChatResponse.of_dict (Chat.rule_response_data
    (RuleEngine.get_response T RuleEngine.rule_engine m))).
Proof.
  intros Hrr. unfold response_consistent, ChatResponse.of_dict.
  cbn [ChatResponse.is_fallback ChatResponse.intent ChatResponse.is_ai
       ChatResponse.tokens_used ChatResponse.reply Chat.rule_response_data
       ResponseData.is_fallback ResponseData.intent ResponseData.is_ai
       ResponseData.tokens_used ResponseData.reply default from_option id].
  destruct (rule_response_shape T RuleEngine.rule_engine m)
    as [[Hfb _]|[_ (i & Hi & Hint & Hrep)]]; cbv zeta in *; [congruence|].
  rewrite Hrr, Hint.
  split_and!.
  - split; intros [=].
  - by intros [].
  - intros [=].
  - intros _. right. split_and!; [reflexivity..|].
    exists i. split_and!; [|reflexivity|exact Hrep].
    apply find_some in Hi as [Hi _]. unfold RuleEngine.rule_engine in Hi.
    cbn [RuleEngine.intents RuleEngine.init] in Hi.
    apply list_elem_of_In.
    rewrite <- (sort_desc_perm RuleEngine.intent_definitions).
    by apply list_elem_of_In.
Qed.

Ltac in_list :=
  lazymatch goal with
  | |- ?x ∈ ?y :: _ =>
      first [ constr_eq x y; apply list_elem_of_here
            | apply list_elem_of_further; in_list ]
  end.

Lemma of_dict_final_fallback :
  ChatResponse.of_dict Chat.final_fallback
  = ChatResponse.fallback Chat.FINAL_FALLBACK_REPLY.
Proof. reflexivity. Qed.

Lemma of_dict_ai_error :
  ChatResponse.of_dict ai_error_data
  = ChatResponse.fallback GeminiService.AI_ERROR_REPLY.
Proof. reflexivity. Qed.

Lemma ai_answer_consistent reply tokens :
  response_consistent (ChatResponse.of_dict
    {| ResponseData.reply := reply;
       ResponseData.intent := Some (py "ai_response");
       ResponseData.is_ai := Some true;
       ResponseData.is_fallback := false;
       ResponseData.tokens_used := Some tokens |}).
Proof.
  unfold response_consistent, ChatResponse.of_dict.
  cbn [ChatResponse.is_fallback ChatResponse.intent ChatResponse.is_ai
       ChatResponse.tokens_used ChatResponse.reply
       ResponseData.is_fallback ResponseData.intent ResponseData.is_ai
       ResponseData.tokens_used ResponseData.reply default from_option id].
  split_and!.
  - split; intros [=].
  - by intros _.
  - intros [=].
  - intros _. by left.
Qed.

Ltac fold_dicts :=
  change {| ResponseData.reply := GeminiService.AI_ERROR_REPLY;
            ResponseData.intent := None;
            ResponseData.is_ai := Some false;
            ResponseData.is_fallback := true;
            ResponseData.tokens_used := None |} with ai_error_data in *;
  rewrite ?of_dict_final_fallback, ?of_dict_ai_error in *.

Lemma chat_response_consistent E rq w :
  match Chat.chat E rq w with
  | Return r _ => response_consistent r
  | Raise _ _ => True
  end.
Proof.
  run; fold_dicts;
    first [ exact I
          | apply fallback_consistent; unfold FALLBACK_REPLIES; in_list
          | apply rule_hit_consistent; assumption
          | apply ai_answer_consistent ].
Qed.

(** C10. In every response the endpoint returns, [is_fallback] is true
    exactly when [intent] is [None]: a response that is not a fallback
    carries the name of a catalog intent or "ai_response"; a fallback
    (one of the six canned replies) carries no intent, is not marked as
    AI and has no [tokens_used]; [tokens_used] is set only on the AI
    response that is not a fallback. *)
Theorem fallback_iff_no_intent E rq w r w' :
  Chat.chat E rq w = Return r w' -> response_consistent r.
Proof.
  intros H. pose proof (chat_response_consistent E rq w) as Hc.
  by rewrite H in Hc.
Qed.

(** ** Validation *)

Section Strip.
Variable T : CharTables.

Lemma lstrip_nil s : lstrip T s = [] <-> whitespace_only T s.
Proof.
  unfold whitespace_only. induction s as [|c s IH]; simpl; [done|].
  destruct (is_space T c) eqn:Hc.
  - rewrite IH. split; [by constructor|by inversion 1].
  - split; [done|]. inversion 1; congruence.
Qed.

Lemma lstrip_head s : space_at T (head (lstrip T s)) = false.
Proof.
  induction s as [|c s IH]; simpl; [done|].
  destruct (is_space T c) eqn:Hc; [done|]. simpl. done.
Qed.

Lemma lstrip_id s : space_at T (head s) = false -> lstrip T s = s.
Proof. destruct s as [|c s]; simpl; [done|]. by intros ->. Qed.

Lemma strip_nil s : strip T s = [] <-> whitespace_only T s.
Proof.
  unfold strip. split.
  - intros H. apply (f_equal (@List.rev _)) in H.
    rewrite rev_involutive in H. simpl in H.
    apply lstrip_nil in H. unfold whitespace_only in H.
    rewrite Forall_forall in H.
    apply lstrip_nil. pose proof (lstrip_head s) as Hh.
    destruct (lstrip T s) as [|c l]; [done|]. simpl in Hh.
    rewrite (H c) in Hh; [done|].
    apply list_elem_of_In, in_rev. rewrite rev_involutive. by left.
  - intros H. apply lstrip_nil in H. by rewrite H.
Qed.

Lemma strip_trimmed s : trimmed T s -> strip T s = s.
Proof.
  intros [Hh Hl]. unfold strip. rewrite (lstrip_id s Hh).
  rewrite lstrip_id; [apply rev_involutive|].
  destruct s as [|c s] using rev_ind; [done|].
  rewrite rev_unit. simpl. by rewrite last_snoc in Hl.
Qed.

End Strip.

Lemma valid_message_passes_validate E rq w :
  valid_message E rq ->
  head (events_since w (final_world (Chat.chat E rq w)))
  = Some (Store SelectClient).
Proof.
  intros [Hne Hlen]. apply Nat.ltb_ge in Hlen. revert Hne Hlen.
  destruct (strip _ _) as [|c p] eqn:Hm; intros Hne Hlen; [done|].
  run; observe; reflexivity.
Qed.

(** C5, as the code has it. An empty or whitespace-only message ends in
    Validate with the "write something" reply, marked as a fallback and
    without intent. Validate measures the message after removing its
    leading and trailing whitespace: a message whose stripped text is
    longer than 1000 characters ends there with the "too long" reply,
    marked as a fallback, and so does every message longer than 1000
    characters that arrives trimmed. In both cases the world is left as
    it was: no statement reaches the database, neither the rule engine's
    reply nor the final fallback is produced, no call is made to the
    model. Every other message passes Validate (the client lookup is
    sent), a message longer than 1000 characters whose stripped text is
    within the bound included. *)
Theorem validate_is_terminal E rq w :
  let raw := ChatRequest.message rq in
  (whitespace_only (tables E) raw ->
   Chat.chat E rq w = Return (ChatResponse.fallback Chat.EMPTY_REPLY) w)
  /\ ((1000 < length (strip (tables E) raw))%nat ->
      Chat.chat E rq w = Return (ChatResponse.fallback Chat.TOO_LONG_REPLY) w)
  /\ (trimmed (tables E) raw -> (1000 < length raw)%nat ->
      Chat.chat E rq w = Return (ChatResponse.fallback Chat.TOO_LONG_REPLY) w)
  /\ (forall reply,
        ChatResponse.is_fallback (ChatResponse.fallback reply) = true
        /\ ChatResponse.intent (ChatResponse.fallback reply) = None
        /\ ChatResponse.is_ai (ChatResponse.fallback reply) = false)
  /\ Chat.EMPTY_REPLY <> RuleEngine.FALLBACK_REPLY
  /\ Chat.EMPTY_REPLY <> Chat.FINAL_FALLBACK_REPLY
  /\ (valid_message E rq ->
      head (events_since w (final_world (Chat.chat E rq w)))
      = Some (Store SelectClient)
      /\ forall r, Chat.chat E rq w <> Return r w).
Proof.
  assert (Hlong : (1000 < length (strip (tables E) (ChatRequest.message rq)))%nat ->
    Chat.chat E rq w = Return (ChatResponse.fallback Chat.TOO_LONG_REPLY) w).
  { intros Hlen. apply Nat.ltb_lt in Hlen.
    unfold Chat.chat, Chat.chat_body. rewrite Hlen.
    destruct (strip _ _); [simpl in Hlen; discriminate|done]. }
  cbv zeta. split_and!.
  - intros Hws. apply strip_nil in Hws.
    unfold Chat.chat, Chat.chat_body. by rewrite Hws.
  - exact Hlong.
  - intros Htr Hlen. apply Hlong. by rewrite strip_trimmed.
  - done.
  - intros H. vm_compute in H. discriminate.
  - intros H. vm_compute in H. discriminate.
  - intros Hvalid.
    pose proof (valid_message_passes_validate E rq w Hvalid) as Hhead.
    split; [exact Hhead|]. intros r Hr. rewrite Hr in Hhead.
    cbn [final_world] in Hhead. rewrite events_since_self in Hhead.
    discriminate Hhead.
Qed.

Lemma validate_is_terminal_witness :
  Chat.chat (Demo.env (fun _ => false) [] None) (Demo.request "   ") Demo.w0
    = Return (ChatResponse.fallback Chat.EMPTY_REPLY) Demo.w0
  /\ Chat.chat (Demo.env (fun _ => false) [] None) padded_long_message Demo.w0
     = Return (ChatResponse.fallback Chat.TOO_LONG_REPLY) Demo.w0.
Proof.
  assert (H1 : whitespace_only latin1 (py "   ")).
  { vm_compute. repeat constructor. }
  assert (H2 : (1000 < length (strip latin1
            (ChatRequest.message padded_long_message)))%nat).
  { vm_compute. lia. }
  split.
  - exact (proj1 (validate_is_terminal (Demo.env (fun _ => false) [] None)
                    (Demo.request "   ") Demo.w0) H1).
  - exact (proj1 (proj2 (validate_is_terminal
                    (Demo.env (fun _ => false) [] None)
                    padded_long_message Demo.w0)) H2).
Defined.

(** The claim as the spec states it, "every message longer than 1000
    characters", fails for the message below: it has 1001 characters,
    its stripped text has 1000, and it passes Validate; two turns are
    stored for it. *)
Lemma padded_message_passes_validate :
  (1000 < length (ChatRequest.message padded_message))%nat
  /\ valid_message (Demo.env (fun _ => false) [] None) padded_message
  /\ head (events_since Demo.w0
            (final_world (Chat.chat (Demo.env (fun _ => false) [] None)
                            padded_message Demo.w0)))
     = Some (Store SelectClient)
  /\ length (messages (db (final_world
        (Chat.chat (Demo.env (fun _ => false) [] None)
           padded_message Demo.w0)))) = 2%nat
  /\ ~ over_length_is_rejected.
Proof.
  assert (Hlen : (1000 < length (ChatRequest.message padded_message))%nat).
  { vm_compute. lia. }
  assert (Hvalid : valid_message (Demo.env (fun _ => false) [] None)
                     padded_message).
  { split; [vm_compute; discriminate|vm_compute; lia]. }
  pose proof (valid_message_passes_validate _ _ Demo.w0 Hvalid) as Hhead.
  split_and!; [exact Hlen|exact Hvalid|exact Hhead|vm_compute; reflexivity|].
  intros H.
  rewrite (H (Demo.env (fun _ => false) [] None) padded_message Demo.w0 Hlen)
    in Hhead.
  vm_compute in Hhead. discriminate Hhead.
Qed.

(** ** The usage gate *)

(** C1. [check_rate_limit], when the database answers: a tenant whose
    counter has reached its limit is denied and nothing is written; a
    tenant below its limit is allowed and its counter, and nothing else,
    goes up by exactly one; an unknown tenant is denied, with no error
    raised and nothing written. With a limit of 1 and a counter of 0, two
    calls in a row give [true], then [false]. *)
Theorem check_rate_limit_consumes_one E client_id w :
  answers E [SelectUsage; UpdateUsage] ->
  (clients (db w) !! client_id = None ->
   exists w', GeminiService.check_rate_limit E client_id w = Return false w'
     /\ db w' = db w)
  /\ (forall c, clients (db w) !! client_id = Some c ->
        (Client.ai_requests_today c >= Client.ai_requests_limit c)%Z ->
        exists w', GeminiService.check_rate_limit E client_id w = Return false w'
          /\ db w' = db w)
  /\ (forall c, clients (db w) !! client_id = Some c ->
        (Client.ai_requests_today c < Client.ai_requests_limit c)%Z ->
        exists w', GeminiService.check_rate_limit E client_id w = Return true w'
          /\ requests_used_today client_id (db w')
             = Some (Client.ai_requests_today c + 1)%Z
          /\ (Client.ai_requests_limit <$> (clients (db w') !! client_id))
             = Some (Client.ai_requests_limit c)
          /\ (forall other, other <> client_id ->
                clients (db w') !! other = clients (db w) !! other)
          /\ conversations (db w') = conversations (db w)
          /\ messages (db w') = messages (db w))
  /\ (forall c, clients (db w) !! client_id = Some c ->
        Client.ai_requests_today c = 0%Z -> Client.ai_requests_limit c = 1%Z ->
        exists w1 w2,
          GeminiService.check_rate_limit E client_id w = Return true w1
          /\ GeminiService.check_rate_limit E client_id w1 = Return false w2
          /\ requests_used_today client_id (db w2) = Some 1%Z).
Proof.
  intros Hans. unfold answers in Hans.
  apply Forall_cons in Hans as [Hsel Hans].
  apply Forall_cons in Hans as [Hupd _].
  assert (Hdeny : forall w c, clients (db w) !! client_id = Some c ->
            (Client.ai_requests_today c >= Client.ai_requests_limit c)%Z ->
            exists w', GeminiService.check_rate_limit E client_id w = Return false w'
              /\ db w' = db w).
  { intros w0 c Hc Hge. apply Z.ge_le, Z.leb_le in Hge. run. eauto. }
  assert (Hallow : forall c, clients (db w) !! client_id = Some c ->
            (Client.ai_requests_today c < Client.ai_requests_limit c)%Z ->
            GeminiService.check_rate_limit E client_id w
            = Return true
                {| db := set_clients (insert client_id
                     (Client.with_ai_requests_today
                        (Client.ai_requests_today c + 1) c)) (db w);
                   trace := (trace w ++ [Store SelectUsage]) ++ [Store UpdateUsage] |}).
  { intros c Hc Hlt. apply Z.leb_gt in Hlt. by run. }
  split_and!.
  - intros Hc. run. eauto.
  - intros c. apply Hdeny.
  - intros c Hc Hlt. eexists. split; [by apply Hallow|].
    unfold requests_used_today. cbn [db clients set_clients conversations messages].
    rewrite lookup_insert_eq. split_and!; [done..| |done|done].
    intros other Hne. by rewrite lookup_insert_ne.
  - intros c Hc H0 H1. eexists. 
    edestruct (Hdeny {| db := set_clients (insert client_id
                     (Client.with_ai_requests_today
                        (Client.ai_requests_today c + 1) c)) (db w);
                   trace := (trace w ++ [Store SelectUsage]) ++ [Store UpdateUsage] |})
      as (w2 & Hrun & Hdb).
    { cbn [db clients set_clients]. apply lookup_insert_eq. }
    { cbn [Client.ai_requests_today Client.ai_requests_limit
           Client.with_ai_requests_today]. lia. }
    exists w2. split_and!; [apply Hallow; [done|lia]|exact Hrun|].
    rewrite Hdb. unfold requests_used_today. cbn [db clients set_clients].
    rewrite lookup_insert_eq. cbn. by rewrite H0.
Qed.

Lemma check_rate_limit_consumes_one_witness :
  exists w1 w2,
    GeminiService.check_rate_limit (Demo.env (fun _ => false) [] None)
      (py "kunde1") Demo.w0 = Return true w1
    /\ GeminiService.check_rate_limit (Demo.env (fun _ => false) [] None)
         (py "kunde1") w1 = Return false w2
    /\ requests_used_today (py "kunde1") (db w2) = Some 1%Z.
Proof.
  refine (proj2 (proj2 (proj2 (check_rate_limit_consumes_one
    (Demo.env (fun _ => false) [] None) (py "kunde1") Demo.w0 _)))
    Demo.kunde1 _ _ _).
  - repeat constructor.
  - vm_compute. reflexivity.
  - reflexivity.
  - reflexivity.
Defined.

(** ** Errors at the boundary of the endpoint *)

Ltac split_elem H :=
  repeat (apply elem_of_cons in H as [H|H]);
  [..|apply elem_of_nil in H; destruct H].

Lemma chat_propagation E rq w : propagation_spec E rq w (Chat.chat E rq w).
Proof.
  run; unfold propagation_spec, valid_message; observe; (split;
    [ intros e w' Heq;
      first [ discriminate Heq
            | injection Heq as <- <-;
              match goal with Hm : strip _ _ = _ |- _ => rewrite Hm end;
              split_and!; [done|apply Nat.ltb_ge; assumption|done|eauto] ]
    | intros op Hin Hf; split_elem Hin; first [congruence | reflexivity] ]).
Qed.

(** The message of a request that Validate lets through, in the form
    the run meets it. *)
Ltac valid_intro H c p Hm Hlen :=
  let Hne := fresh in
  destruct H as [Hne Hlen]; revert Hne Hlen;
  destruct (strip _ _) as [|c p] eqn:Hm; intros Hne Hlen; [done|];
  clear Hne; apply Nat.ltb_ge in Hlen.

Lemma unknown_client_raises E rq w :
  valid_message E rq -> storage_fails E SelectClient = false ->
  clients (db w) !! ChatRequest.client_id rq = None ->
  Chat.chat E rq w
  = Raise NOT_FOUND {| db := db w; trace := trace w ++ [Store SelectClient] |}.
Proof.
  intros Hvalid Hsel Hc. valid_intro Hvalid c p Hm Hlen. run. reflexivity.
Qed.

Lemma inactive_client_raises E rq w c :
  valid_message E rq -> storage_fails E SelectClient = false ->
  clients (db w) !! ChatRequest.client_id rq = Some c ->
  Client.is_active c = false ->
  Chat.chat E rq w
  = Raise NOT_ACTIVE {| db := db w; trace := trace w ++ [Store SelectClient] |}.
Proof.
  intros Hvalid Hsel Hc Hact. valid_intro Hvalid c' p Hm Hlen. run. reflexivity.
Qed.

(** C4, as the code has it. The endpoint returns a response or raises
    one of two HTTP errors, which it re-raises on purpose: 404 for an
    unknown client and 403 for an inactive one (both only for a message
    that passed Validate, the client lookup having answered). Nothing
    else is propagated: when a statement sent to the database fails, the
    run ends there with the internal-error reply "Der opstod en fejl.
    Proev igen senere." marked as a fallback, which is not the text of
    the final fallback. *)
Theorem only_http_errors_propagate E rq w :
  let o := Chat.chat E rq w in
  let client := clients (db w) !! ChatRequest.client_id rq in
  (forall e w', o = Raise e w' ->
     valid_message E rq /\ storage_fails E SelectClient = false
     /\ ((e = NOT_FOUND /\ client = None)
         \/ (e = NOT_ACTIVE
             /\ exists c, client = Some c /\ Client.is_active c = false)))
  /\ (valid_message E rq -> storage_fails E SelectClient = false ->
      client = None -> exists w', o = Raise NOT_FOUND w')
  /\ (forall c, valid_message E rq -> storage_fails E SelectClient = false ->
        client = Some c -> Client.is_active c = false ->
        exists w', o = Raise NOT_ACTIVE w')
  /\ (forall op, Store op ∈ events_since w (final_world o) ->
        storage_fails E op = true ->
        o = Return (ChatResponse.fallback Chat.ERROR_REPLY) (final_world o))
  /\ Chat.ERROR_REPLY <> Chat.FINAL_FALLBACK_REPLY.
Proof.
  cbv zeta. destruct (chat_propagation E rq w) as [Hraise Hfault].
  split_and!.
  - exact Hraise.
  - intros. eexists. by apply unknown_client_raises.
  - intros. eexists. by eapply inactive_client_raises.
  - exact Hfault.
  - intros H. vm_compute in H. discriminate.
Qed.

Lemma only_http_errors_propagate_witness :
  (exists w', Chat.chat (Demo.env (fun _ => false) [] None)
                unknown_client_request Demo.w0 = Raise NOT_FOUND w')
  /\ Chat.chat (Demo.env (fails_on SelectClient) [] None)
       (Demo.request "hej") Demo.w0
     = Return (ChatResponse.fallback Chat.ERROR_REPLY)
         {| db := Demo.db0; trace := [Store SelectClient] |}.
Proof.
  split.
  - refine (proj1 (proj2 (only_http_errors_propagate
      (Demo.env (fun _ => false) [] None) unknown_client_request Demo.w0))
      _ _ _).
    + split; [by vm_compute|vm_compute; lia].
    + reflexivity.
    + by vm_compute.
  - refine (proj1 (proj2 (proj2 (proj2 (only_http_errors_propagate
      (Demo.env (fails_on SelectClient) [] None) (Demo.request "hej") Demo.w0))))
      SelectClient _ _).
    + vm_compute. left.
    + reflexivity.
Defined.

(** The claim as the spec states it, "no error is propagated to the
    caller", fails for a client the database does not know: the 404 is
    raised to the caller. *)
Lemma unknown_client_error_is_propagated :
  ~ (forall E rq w, exists r w', Chat.chat E rq w = Return r w').
Proof.
  intros H.
  destruct (H (Demo.env (fun _ => false) [] None) unknown_client_request Demo.w0)
    as (r & w' & Hr).
  vm_compute in Hr. discriminate.
Qed.

(** ** The usage counter along a request *)

Ltac solve_consumed :=
  lazymatch goal with
  | H : clients (db ?w) !! ?cid = Some ?c |- consumed_once ?cid ?w _ =>
      exists (Client.ai_requests_today c);
      unfold requests_used_today;
      cbn [db clients set_clients add_conversation add_all];
      rewrite H, lookup_insert_eq; split; reflexivity
  end.

Lemma chat_context_failure E rq w :
  context_failure_spec E rq w (Chat.chat E rq w).
Proof.
  run; unfold context_failure_spec, usage_untouched; observe;
    intros op Hop Hin Hf; split_elem Hin;
    try (injection Hin as ->); try discriminate Hin;
    (destruct Hop as [Hop|Hop]; try discriminate Hop);
    try congruence.
  all: split_and!;
    first [ reflexivity | lia | solve [intros [=]]
          | intros _; first [reflexivity | solve_consumed] ].
Qed.








(** C9, as the code has it. When the history store (the query of the
    stored turns) or the knowledge store fails on a request, the
    endpoint does not go on with an empty context: the failure is caught
    at the outer handler, the request ends with the internal-error reply
    marked as a fallback, and no call is made to the model. No turn is
    saved. For the history store no counter has moved; for the knowledge
    store, which is asked after the gate, the slot of the tenant stays
    consumed. *)
Theorem context_store_failure_ends_request E rq w :
  let o := Chat.chat E rq w in
  let w' := final_world o in
  forall op, op = SelectMessages \/ op = SelectKnowledge ->
    Store op ∈ events_since w w' ->
    storage_fails E op = true ->
    o = Return (ChatResponse.fallback Chat.ERROR_REPLY) w'
    /\ ai_calls w' = ai_calls w
    /\ messages (db w') = messages (db w)
    /\ (op = SelectMessages -> usage_untouched w w')
    /\ (op = SelectKnowledge ->
        consumed_once (ChatRequest.client_id rq) w w').
Proof. exact (chat_context_failure E rq w). Qed.

Lemma context_store_failure_ends_request_witness :
  (exists w',
     Chat.chat (Demo.env (fails_on SelectMessages) [] (Some (py "Her er svaret")))
       gibberish Demo.w0
     = Return (ChatResponse.fallback Chat.ERROR_REPLY) w'
     /\ ai_calls w' = ai_calls Demo.w0)
  /\ (exists w',
        Chat.chat (Demo.env (fails_on SelectKnowledge) [] (Some (py "Her er svaret")))
          gibberish Demo.w0
        = Return (ChatResponse.fallback Chat.ERROR_REPLY) w'
        /\ ai_calls w' = ai_calls Demo.w0
        /\ consumed_once (py "kunde1") Demo.w0 w').
Proof.
  split.
  - destruct (context_store_failure_ends_request
      (Demo.env (fails_on SelectMessages) [] (Some (py "Her er svaret")))
      gibberish Demo.w0 SelectMessages) as (Hr & Hcalls & _).
    + by left.
    + vm_compute. repeat constructor.
    + reflexivity.
    + eexists. split; [exact Hr|exact Hcalls].
  - destruct (context_store_failure_ends_request
      (Demo.env (fails_on SelectKnowledge) [] (Some (py "Her er svaret")))
      gibberish Demo.w0 SelectKnowledge) as (Hr & Hcalls & _ & _ & Hused).
    + by right.
    + vm_compute. repeat constructor.
    + reflexivity.
    + eexists. split_and!; [exact Hr|exact Hcalls|by apply Hused].
Defined.

(** The request below is eligible for AI (with the stores up it is
    answered by the model); with the history store failing it ends with
    the internal-error reply and the model is not called. *)
Lemma history_store_failure_aborts :
  (exists w',
     Chat.chat (Demo.env (fun _ => false) [] (Some (py "Her er svaret")))
       gibberish Demo.w0
     = Return {| ChatResponse.reply := py "Her er svaret";
                 ChatResponse.intent := Some (py "ai_response");
                 ChatResponse.is_ai := true;
                 ChatResponse.is_fallback := false;
                 ChatResponse.tokens_used := Some 153%Z |} w'
     /\ ai_calls w' = 1%nat)
  /\ (exists w',
        Chat.chat (Demo.env (fails_on SelectMessages) [] (Some (py "Her er svaret")))
          gibberish Demo.w0
        = Return (ChatResponse.fallback Chat.ERROR_REPLY) w'
        /\ ai_calls w' = 0%nat)
  /\ ~ proceeds_with_empty_context.
Proof.
  split_and!.
  - eexists. split; vm_compute; reflexivity.
  - eexists. split; vm_compute; reflexivity.
  - intros H.
    specialize (H (Demo.env (fails_on SelectMessages) [] (Some (py "Her er svaret")))
                  gibberish Demo.w0 SelectMessages (or_introl eq_refl)).
    vm_compute in H. specialize (H ltac:(repeat constructor) eq_refl).
    discriminate H.
Qed.

(** ** A denied gate *)

Lemma rule_miss_is_fallback T self m :
  RuleEngine._match_intent T self (RuleEngine._normalize T m) = None ->
  RuleEngine.is_fallback (RuleEngine.get_response T self m) = true.
Proof.
  intros H. unfold RuleEngine.get_response. destruct m; [done|]. by rewrite H.
Qed.

(** C6, as the code has it. When no rule matched, AI is enabled and
    the gate denies, the request ends with the quota-exceeded reply
    marked as a fallback; the model is not called, the knowledge base is
    not fetched, no counter moves and no turn is saved. The stored turns
    of the conversation, however, have been read by then: the endpoint
    queries the history before it tries the rules. *)
Theorem denied_gate_skips_model E rq w c :
  gate_denies E rq w c ->
  exists w',
    Chat.chat E rq w = Return (ChatResponse.fallback Chat.QUOTA_REPLY) w'
    /\ ai_calls w' = ai_calls w
    /\ (Store SelectKnowledge ∉ events_since w w')
    /\ Store SelectMessages ∈ events_since w w'
    /\ usage_untouched w w'
    /\ messages (db w') = messages (db w).
Proof.
  intros (Hvalid & Hc & Hact & Hrule & Hrq & Hai & Hquota & Hans).
  apply rule_miss_is_fallback in Hrule.
  apply Z.ge_le, Z.leb_le in Hquota.
  unfold answers in Hans. rewrite !Forall_cons in Hans.
  destruct Hans as (? & ? & ? & ? & ? & _).
  destruct Hvalid as [Hne Hlen]. apply Nat.ltb_ge in Hlen.
  revert Hne Hlen Hrule.
  destruct (strip _ _) as [|ch p] eqn:Hm; intros Hne Hlen Hrule; [done|].
  run; eexists; (split; [reflexivity|]); unfold usage_untouched; observe;
    (split_and!; [lia| |in_list|same|same]);
    intros Hin; split_elem Hin; discriminate.
Qed.

Lemma gate_denies_demo :
  gate_denies (Demo.env (fun _ => false) [] (Some (py "Her er svaret")))
    gibberish DemoFull.w0 (Client.with_ai_requests_today 1 Demo.kunde1).
Proof.
  unfold gate_denies. split_and!; try (vm_compute; reflexivity).
  - split; [by vm_compute|vm_compute; lia].
  - vm_compute. discriminate.
  - repeat constructor.
Qed.

Lemma denied_gate_skips_model_witness :
  exists w',
    Chat.chat (Demo.env (fun _ => false) [] (Some (py "Her er svaret")))
      gibberish DemoFull.w0
    = Return (ChatResponse.fallback Chat.QUOTA_REPLY) w'
    /\ ai_calls w' = ai_calls DemoFull.w0
    /\ Store SelectMessages ∈ events_since DemoFull.w0 w'.
Proof.
  destruct (denied_gate_skips_model _ _ _ _ gate_denies_demo)
    as (w' & Hr & Hcalls & _ & Hhist & _).
  exists w'. split_and!; [exact Hr|exact Hcalls|exact Hhist].
Defined.

(** On the request below the gate denies, and the history store has
    been queried. *)
Lemma denied_gate_has_read_history :
  (exists w',
     Chat.chat (Demo.env (fun _ => false) [] (Some (py "Her er svaret")))
       gibberish DemoFull.w0
     = Return (ChatResponse.fallback Chat.QUOTA_REPLY) w'
     /\ events_since DemoFull.w0 w'
        = [Store SelectClient; Store SelectConversation;
           Store InsertConversation; Store SelectMessages; Store SelectUsage])
  /\ ~ denied_gate_reads_no_context.
Proof.
  split.
  - eexists. split; vm_compute; reflexivity.
  - intros H. apply (H _ _ _ _ gate_denies_demo). left.
    vm_compute. repeat constructor.
Qed.

(** ** The context handed to the model *)

Lemma rev_firstn_rev {A} n (l : list A) :
  List.rev (firstn n (List.rev l)) = lastn n l.
Proof. unfold lastn. by rewrite firstn_rev, rev_involutive. Qed.

Lemma lastn_length {A} n (l : list A) :
  length (lastn n l) = Nat.min n (length l).
Proof. unfold lastn. rewrite length_skipn. lia. Qed.

Lemma lastn_lastn {A} n m (l : list A) :
  (n <= m)%nat -> lastn n (lastn m l) = lastn n l.
Proof.
  intros Hnm. unfold lastn. rewrite length_skipn, skipn_skipn. f_equal. lia.
Qed.

Lemma lastn_map {A B} (f : A -> B) n (l : list A) :
  lastn n (List.map f l) = List.map f (lastn n l).
Proof. unfold lastn. by rewrite length_map, skipn_map. Qed.

(** The last [n] elements, in their order: [l] ends with them. *)
Lemma lastn_suffix {A} n (l : list A) :
  exists older, l = older ++ lastn n l.
Proof. exists (firstn (length l - n) l). unfold lastn. by rewrite firstn_skipn. Qed.

Lemma sources_from_lookup i kbs k :
  GeminiService.sources_from i kbs !! k
  = (fun kb => source_header (i + k) ++ kb) <$> kbs !! k.
Proof.
  revert i k. induction kbs as [|kb kbs IH]; intros i k; [done|].
  destruct k as [|k]; cbn [GeminiService.sources_from lookup list_lookup fmap
                           option_fmap option_map].
  - unfold source_header. rewrite Nat.add_0_r, <- !app_assoc. done.
  - rewrite IH. do 3 f_equal. lia.
Qed.

Lemma sources_from_length i kbs :
  length (GeminiService.sources_from i kbs) = length kbs.
Proof. revert i. induction kbs; intros; simpl; [done|by rewrite IHkbs]. Qed.

Lemma build_system_prompt_first_10 client_id kbs info :
  GeminiService._build_system_prompt client_id kbs info
  = GeminiService._build_system_prompt client_id (firstn 10 kbs) info.
Proof.
  unfold GeminiService._build_system_prompt.
  destruct kbs as [|kb kbs]; [cbn [firstn]; same|].
  rewrite firstn_firstn. change (Nat.min 10 10) with 10%nat.
  cbn [firstn]. same.
Qed.

Lemma chat_context E rq w : context_spec E rq w (Chat.chat E rq w).
Proof.
  run; unfold context_spec, conversation_id_of, messages_of in *; observe;
    intros hist prompt Hin; split_elem Hin; try discriminate Hin;
    injection Hin as -> ->;
    match goal with
    | Hc : clients _ !! _ = Some ?c,
      Hm : strip _ _ = _,
      Hf : List.find _ _ = _ |- _ =>
        exists c; eexists; rewrite Hm, Hf; (split; [exact Hc|]);
        split; reflexivity
    end.
Qed.

Lemma query_history_answers E id w :
  storage_fails E SelectMessages = false ->
  Chat.query_history E id w
  = Return (firstn 10 (List.rev (messages_of id (db w))))
      {| db := db w; trace := trace w ++ [Store SelectMessages] |}.
Proof. intros H. run. reflexivity. Qed.

Lemma system_prompt_holds_sources client_id kbs info :
  kbs <> [] ->
  exists before after,
    GeminiService._build_system_prompt client_id kbs info
    = before
      ++ join [NEWLINE; NEWLINE]
           (GeminiService.sources_from 0 (firstn 10 kbs))
      ++ after.
Proof.
  intros Hne. unfold GeminiService._build_system_prompt.
  destruct kbs as [|kb kbs]; [done|].
  set (base := GeminiService.BASE_INSTRUCTIONS _).
  set (sources := join _ _).
  set (title := py "VIDENBASE (brug denne information til at svare):").
  exists (base ++ [NEWLINE; NEWLINE] ++ title ++ [NEWLINE]).
  destruct (ClientInfo.website_url info) as [[|ch site]|];
    eexists; rewrite <- !app_assoc; reflexivity.
Qed.

(** C8. The history query pulls the 10 most recent stored turns of
    the conversation, newest first; reversed, they are the last 10
    stored turns in chronological order. Whenever the endpoint calls the
    model, the history it passes is made of the last 5 of those, oldest
    first (so the last 5 stored turns), and the prompt is built from the
    first 10 knowledge texts of the tenant only: texts beyond the tenth
    leave the prompt unchanged, and the texts kept appear in their
    stored order, text [k] under the header "--- Side k+1 ---". *)
Theorem context_is_bounded E rq w :
  let o := Chat.chat E rq w in
  let cid := ChatRequest.client_id rq in
  (forall id w0, storage_fails E SelectMessages = false ->
     exists w1,
       Chat.query_history E id w0
       = Return (firstn 10 (List.rev (messages_of id (db w0)))) w1)
  /\ (forall stored : list Message.t,
        List.rev (firstn 10 (List.rev stored)) = lastn 10 stored
        /\ exists older, stored = older ++ lastn 10 stored)
  /\ (forall hist prompt,
        SendMessage hist prompt ∈ events_since w (final_world o) ->
        exists c d,
          clients (db w) !! cid = Some c
          /\ hist = List.map GeminiService.gemini_turn
                      (lastn 5 (lastn 10 (stored_turns rq (db w))))
          /\ hist = List.map GeminiService.gemini_turn
                      (lastn 5 (stored_turns rq (db w)))
          /\ (length hist <= 5)%nat
          /\ prompt
             = GeminiService.build_full_prompt
                 (GeminiService._build_system_prompt cid
                    (firstn 10 (knowledge_texts E cid d))
                    {| ClientInfo.company_name := Client.company_name c;
                       ClientInfo.website_url := Client.website_url c |})
                 (strip (tables E) (ChatRequest.message rq)))
  /\ (forall kbs info,
        GeminiService._build_system_prompt cid kbs info
        = GeminiService._build_system_prompt cid (firstn 10 kbs) info
        /\ length (GeminiService.sources_from 0 (firstn 10 kbs))
           = Nat.min 10 (length kbs)
        /\ (forall k kb, (k < 10)%nat -> kbs !! k = Some kb ->
              GeminiService.sources_from 0 (firstn 10 kbs) !! k
              = Some (source_header k ++ kb))
        /\ (kbs <> [] ->
            exists before after,
              GeminiService._build_system_prompt cid kbs info
              = before
                ++ join [NEWLINE; NEWLINE]
                     (GeminiService.sources_from 0 (firstn 10 kbs))
                ++ after)).
Proof.
  cbv zeta. split_and!.
  - intros id w0 H. eexists. by apply query_history_answers.
  - intros stored. split; [apply rev_firstn_rev|apply lastn_suffix].
  - intros hist prompt Hin.
    destruct (chat_context E rq w hist prompt Hin) as (c & d & Hc & -> & ->).
    exists c, d. unfold GeminiService.build_chat_history, stored_turns.
    rewrite rev_firstn_rev, <- (lastn_map Chat.history_turn 10).
    split_and!; [exact Hc|reflexivity| | |].
    + by rewrite lastn_lastn by lia.
    + rewrite length_map, lastn_length. lia.
    + by rewrite <- build_system_prompt_first_10.
  - intros kbs info. split_and!.
    + apply build_system_prompt_first_10.
    + by rewrite sources_from_length, length_firstn.
    + intros k kb Hk Hkb. rewrite sources_from_lookup.
      rewrite lookup_take_lt by exact Hk.
      exact (fmap_Some_2 (fun t => source_header k ++ t) _ _ Hkb).
    + apply system_prompt_holds_sources.
Qed.

Lemma context_is_bounded_witness :
  exists prompt,
    SendMessage DemoLong.forwarded prompt
      ∈ events_since DemoLong.w0
          (final_world (Chat.chat DemoLong.env gibberish DemoLong.w0))
    /\ (length DemoLong.forwarded <= 5)%nat.
Proof.
  assert (Hin : exists hist prompt,
            SendMessage hist prompt
              ∈ events_since DemoLong.w0
                  (final_world (Chat.chat DemoLong.env gibberish DemoLong.w0))).
  { eexists. eexists. vm_compute.
    do 6 apply list_elem_of_further. apply list_elem_of_here. }
  destruct Hin as (hist & prompt & Hin).
  destruct (proj1 (proj2 (proj2 (context_is_bounded DemoLong.env gibberish
              DemoLong.w0))) hist prompt Hin)
    as (c & d & _ & _ & Hhist & Hlen & _).
  exists prompt.
  assert (hist = DemoLong.forwarded) as <-; [|by split].
  rewrite Hhist. vm_compute. reflexivity.
Defined.

Lemma match_intent_priority_then_definition_order_witness :
  (exists it i,
     RuleEngine.name it = py "human_support"
     /\ first_in_order
          (RuleEngine.intent_matches latin1 (py "hej jeg har brug for support"))
          RuleEngine.intent_definitions i it)
  /\ (exists it i,
        RuleEngine.name it = py "prices"
        /\ first_in_order
             (RuleEngine.intent_matches latin1 (py "hvad er prisen pris booking"))
             RuleEngine.intent_definitions i it).
Proof.
  split.
  - destruct (RuleEngine._match_intent latin1 RuleEngine.rule_engine
                (py "hej jeg har brug for support")) as [it|] eqn:Hm;
      [|vm_compute in Hm; discriminate Hm].
    destruct (proj1 (proj1 (proj2 (proj2
      (match_intent_priority_then_definition_order latin1
         RuleEngine.intent_definitions (py "hej jeg har brug for support"))))
      it) Hm) as [i Hi].
    exists it, i. split; [|exact Hi].
    vm_compute in Hm. injection Hm as <-. vm_compute. reflexivity.
  - destruct (RuleEngine._match_intent latin1 RuleEngine.rule_engine
                (py "hvad er prisen pris booking")) as [it|] eqn:Hm;
      [|vm_compute in Hm; discriminate Hm].
    destruct (proj1 (proj1 (proj2 (proj2
      (match_intent_priority_then_definition_order latin1
         RuleEngine.intent_definitions (py "hvad er prisen pris booking"))))
      it) Hm) as [i Hi].
    exists it, i. split; [|exact Hi].
    vm_compute in Hm. injection Hm as <-. vm_compute. reflexivity.
Defined.

(** The scenarios of the spec on the catalog. *)
Example opening_hours_scenario :
  RuleEngine.get_response latin1 RuleEngine.rule_engine
    (py "Hvornår har I åbent?")
  = {| RuleEngine.reply :=
         py "Vi har åbent mandag-fredag kl. 09:00–17:00, weekend 10:00-14:00.";
       RuleEngine.intent := Some (py "opening_hours");
       RuleEngine.is_fallback := false |}.
Proof. vm_compute. reflexivity. Qed.

Example sorted_catalog_names :
  List.map RuleEngine.name (RuleEngine.intents RuleEngine.rule_engine)
  = List.map py [
      "human_support"; "opening_hours"; "prices"; "booking"; "contact";
      "location"; "services"; "shipping"; "returns"; "order_status";
      "payments"; "help"; "greeting"; "goodbye" ]%string.
Proof. vm_compute. reflexivity. Qed.

Example ai_answer_scenario :
  exists w',
    Chat.chat (Demo.env (fun _ => false) [] (Some (py "Her er svaret")))
      gibberish Demo.w0
    = Return {| ChatResponse.reply := py "Her er svaret";
                ChatResponse.intent := Some (py "ai_response");
                ChatResponse.is_ai := true;
                ChatResponse.is_fallback := false;
                ChatResponse.tokens_used := Some 153%Z |} w'
    /\ ai_calls w' = 1%nat
    /\ requests_used_today (py "kunde1") (db w') = Some 1%Z.
Proof. eexists. split_and!; vm_compute; reflexivity. Qed.

Lemma fallback_iff_no_intent_witness :
  response_consistent
    {| ChatResponse.reply := py "Her er svaret";
       ChatResponse.intent := Some (py "ai_response");
       ChatResponse.is_ai := true;
       ChatResponse.is_fallback := false;
       ChatResponse.tokens_used := Some 153%Z |}.
Proof.
  assert (H : exists w',
            Chat.chat (Demo.env (fun _ => false) [] (Some (py "Her er svaret")))
              gibberish Demo.w0
            = Return {| ChatResponse.reply := py "Her er svaret";
                        ChatResponse.intent := Some (py "ai_response");
                        ChatResponse.is_ai := true;
                        ChatResponse.is_fallback := false;
                        ChatResponse.tokens_used := Some 153%Z |} w').
  { eexists. vm_compute. reflexivity. }
  destruct H as [w' H]. exact (fallback_iff_no_intent _ _ _ _ _ H).
Defined.

(** ** Normalisation of the message *)

Lemma latin1_forall (P : char -> bool) :
  forallb P latin1_range = true -> forall c, c < 256 -> P c = true.
Proof.
  intros H c Hc. rewrite forallb_forall in H. apply H.
  unfold latin1_range. apply in_map_iff. exists (N.to_nat c).
  split; [apply N2Nat.id|]. apply in_seq. lia.
Qed.

Lemma latin1_lower_char_idemp c :
  c < 256 -> latin1_lower_char (latin1_lower_char c) = latin1_lower_char c.
Proof.
  intros Hc. apply N.eqb_eq. revert c Hc.
  apply (latin1_forall
    (fun c => latin1_lower_char (latin1_lower_char c) =? latin1_lower_char c)).
  vm_compute. reflexivity.
Qed.

Lemma latin1_lower_char_range c : c < 256 -> latin1_lower_char c < 256.
Proof.
  intros Hc. apply N.ltb_lt. revert c Hc.
  apply (latin1_forall (fun c => latin1_lower_char c <? 256)).
  vm_compute. reflexivity.
Qed.

(** Only letters, which are word characters, have a lower case of
    their own. *)
Lemma latin1_lower_char_non_word c :
  c < 256 -> latin1_is_word c = false -> latin1_lower_char c = c.
Proof.
  intros Hc Hw. apply N.eqb_eq.
  pose proof (latin1_forall
    (fun c => latin1_is_word c || (latin1_lower_char c =? c))
    ltac:(vm_compute; reflexivity) c Hc) as H.
  cbv beta in H. by rewrite Hw in H.
Qed.

Section Normalize.
Variable T : CharTables.

Lemma split_from_tokens cur s w :
  Forall (fun c => is_space T c = false) cur ->
  In w (split_from T cur s) ->
  w <> [] /\ Forall (fun c => is_space T c = false) w
  /\ forall c, In c w -> In c cur \/ In c s.
Proof.
  revert cur. induction s as [|c s IH]; intros cur Hcur; simpl.
  - destruct cur as [|c0 cur]; [done|]. intros [<-|[]]. split_and!.
    + intros H. apply (f_equal (@length _)) in H.
      rewrite length_rev in H. done.
    + by apply Forall_rev.
    + intros c Hc. left. by apply in_rev.
  - destruct (is_space T c) eqn:Hsp.
    + destruct cur as [|c0 cur].
      * intros Hw. destruct (IH [] Hcur Hw) as (? & ? & Hin).
        split_and!; [done..|]. intros x Hx.
        destruct (Hin x Hx) as [[]|?]. right. by right.
      * intros [<-|Hw].
        -- split_and!.
           ++ intros H. apply (f_equal (@length _)) in H.
              rewrite length_rev in H. done.
           ++ by apply Forall_rev.
           ++ intros x Hx. left. by apply in_rev.
        -- destruct (IH [] (Forall_nil_2 _) Hw) as (? & ? & Hin).
           split_and!; [done..|]. intros x Hx.
           destruct (Hin x Hx) as [[]|?]. right. by right.
    + intros Hw. destruct (IH (c :: cur) (Forall_cons_2 _ _ _ Hsp Hcur) Hw)
        as (? & ? & Hin).
      split_and!; [done..|]. intros x Hx.
      destruct (Hin x Hx) as [[<-|?]|?]; [right; by left|by left|right; by right].
Qed.

Lemma split_from_word w cur s :
  Forall (fun c => is_space T c = false) w ->
  split_from T cur (w ++ s) = split_from T (List.rev w ++ cur) s.
Proof.
  revert cur. induction w as [|c w IH]; intros cur Hw; [done|].
  apply Forall_cons in Hw as [Hc Hw]. simpl. rewrite Hc, IH by done.
  by rewrite <- app_assoc.
Qed.

Lemma split_from_spaces ws cur s :
  Forall (fun c => is_space T c = true) ws -> ws <> [] ->
  split_from T cur (ws ++ s)
  = match cur with [] => [] | _ => [List.rev cur] end ++ split_from T [] s.
Proof.
  intros Hws. revert cur. induction Hws as [|c ws Hc Hws IH]; intros cur Hne;
    [done|]. simpl. rewrite Hc.
  destruct ws as [|c' ws].
  - by destruct cur.
  - specialize (IH [] ltac:(done)). rewrite IH. by destruct cur.
Qed.

Lemma split_leading ws s :
  Forall (fun c => is_space T c = true) ws ->
  split T (ws ++ s) = split T s.
Proof.
  intros Hws. destruct ws as [|c ws]; [done|].
  unfold split. by rewrite split_from_spaces.
Qed.

Lemma split_from_trailing s ws cur :
  Forall (fun c => is_space T c = true) ws ->
  split_from T cur (s ++ ws) = split_from T cur s.
Proof.
  intros Hws. revert cur. induction s as [|c s IH]; intros cur.
  - destruct ws as [|c ws]; [done|].
    rewrite app_nil_l, <- (app_nil_r (c :: ws)), split_from_spaces by done.
    simpl. by destruct cur; rewrite ?app_nil_r.
  - simpl. destruct (is_space T c); [|apply IH].
    destruct cur; by rewrite IH.
Qed.

Lemma split_join ws :
  is_space T SPACE = true ->
  Forall (fun w => w <> [] /\ Forall (fun c => is_space T c = false) w) ws ->
  split T (join [SPACE] ws) = ws.
Proof.
  intros Hsp. unfold split. induction 1 as [|w ws [Hne Hw] Hws IH]; [done|].
  assert (Hrev : match List.rev w ++ [] with
                 | [] => []
                 | _ => [List.rev (List.rev w ++ [])]
                 end = [w]).
  { rewrite app_nil_r, rev_involutive.
    destruct (List.rev w) eqn:Hr; [|done].
    apply (f_equal (@length _)) in Hr. rewrite length_rev in Hr.
    by destruct w. }
  destruct ws as [|w' ws].
  - pose proof (split_from_word w [] [] Hw) as H.
    rewrite (app_nil_r w) in H. simpl in *. rewrite H. exact Hrev.
  - change (join [SPACE] (w :: w' :: ws))
      with (w ++ [SPACE] ++ join [SPACE] (w' :: ws)).
    rewrite split_from_word by done.
    rewrite split_from_spaces by (by repeat constructor).
    by rewrite Hrev, IH.
Qed.

Lemma sub_punctuation_chars text c :
  In c (sub_punctuation T text) ->
  c = SPACE \/ (In c text /\ is_word T c || is_space T c = true).
Proof.
  unfold sub_punctuation. rewrite in_map_iff. intros (x & <- & Hx).
  destruct (is_word T x || is_space T x) eqn:H; [right|left]; done.
Qed.

Lemma normalize_words_tokens text :
  is_space T SPACE = true ->
  Forall (is_token T) (split T (sub_punctuation T (lower T text))).
Proof.
  intros Hsp. apply Forall_forall. intros w Hw%list_elem_of_In.
  apply split_from_tokens in Hw as (Hne & Hns & Hin); [|done].
  split; [done|]. apply Forall_forall. intros c Hc.
  rewrite Forall_forall in Hns. specialize (Hns c Hc). split; [|done].
  apply list_elem_of_In in Hc.
  destruct (Hin c Hc) as [[]|Hs].
  apply sub_punctuation_chars in Hs as [->|[_ Hs]]; [congruence|].
  by rewrite Hns, orb_false_r in Hs.
Qed.

Lemma join_tokens_chars ws c :
  In c (join [SPACE] ws) -> c = SPACE \/ exists w, In w ws /\ In c w.
Proof.
  induction ws as [|w ws IH]; [done|].
  destruct ws as [|w' ws].
  - intros Hc. right. exists w. split; [by left|done].
  - change (join [SPACE] (w :: w' :: ws))
      with (w ++ [SPACE] ++ join [SPACE] (w' :: ws)).
    rewrite !in_app_iff. intros [Hc|[[<-|[]]|Hc]]; [|by left|].
    + right. exists w. split; [by left|done].
    + destruct (IH Hc) as [->|(w0 & Hw0 & Hc0)]; [by left|].
      right. exists w0. split; [by right|done].
Qed.

Lemma join_tokens_head ws :
  Forall (is_token T) ws -> space_at T (head (join [SPACE] ws)) = false.
Proof.
  destruct 1 as [|w ws [Hne Hw] Hws]; [done|].
  destruct w as [|c w]; [done|].
  apply Forall_cons in Hw as [[_ Hc] _].
  by destruct ws.
Qed.

Lemma join_tokens_last ws :
  Forall (is_token T) ws -> space_at T (last (join [SPACE] ws)) = false.
Proof.
  induction 1 as [|w ws [Hne Hw] Hws IH]; [done|].
  destruct ws as [|w' ws].
  - simpl. destruct (last w) as [c|] eqn:Hl; [|done].
    apply last_Some in Hl as [l' ->].
    apply Forall_app in Hw as [_ Hc]. by inversion Hc as [|? ? [_ ?]].
  - change (join [SPACE] (w :: w' :: ws))
      with (w ++ [SPACE] ++ join [SPACE] (w' :: ws)).
    inversion Hws as [|? ? [Hne' _] _]; subst.
    assert (Hj : join [SPACE] (w' :: ws) <> []).
    { destruct w'; [done|]. by destruct ws. }
    rewrite !last_app.
    destruct (last (join [SPACE] (w' :: ws))) eqn:Hl; [exact IH|].
    by apply last_None in Hl.
Qed.

End Normalize.

Lemma normalize_split (T : CharTables) (text : pystr) :
  is_space T SPACE = true ->
  split T (RuleEngine._normalize T text)
  = split T (sub_punctuation T (lower T text)).
Proof.
  intros Hsp. unfold RuleEngine._normalize. apply split_join; [done|].
  eapply Forall_impl; [exact (normalize_words_tokens T text Hsp)|].
  intros w [Hne Hw]. split; [done|].
  eapply Forall_impl; [exact Hw|]. by intros c [_ ?].
Qed.

Lemma normalize_chars (T : CharTables) (text : pystr) :
  is_space T SPACE = true ->
  Forall (fun c => c = SPACE \/ (is_word T c = true /\ is_space T c = false))
    (RuleEngine._normalize T text).
Proof.
  intros Hsp. unfold RuleEngine._normalize.
  pose proof (normalize_words_tokens T text Hsp) as Htok.
  apply Forall_forall. intros c Hc%list_elem_of_In.
  apply join_tokens_chars in Hc as [->|(w & Hw & Hc)]; [by left|right].
  rewrite Forall_forall in Htok.
  destruct (Htok w) as [_ Hall]; [by apply list_elem_of_In|].
  rewrite Forall_forall in Hall. apply Hall. by apply list_elem_of_In.
Qed.

(** X1. Whatever the message, its normalised form is a sequence of
    words separated by exactly one space: every word is non-empty and
    made of word characters only, nothing but the separating spaces is
    whitespace, there is no whitespace at either end, and splitting the
    normalised form on whitespace gives the words back. *)
Theorem normalize_output_shape (T : CharTables) (text : pystr) :
  is_space T SPACE = true ->
  exists words,
    RuleEngine._normalize T text = join [SPACE] words
    /\ Forall (is_token T) words
    /\ split T (RuleEngine._normalize T text) = words
    /\ trimmed T (RuleEngine._normalize T text)
    /\ Forall (fun c => c = SPACE \/ (is_word T c = true /\ is_space T c = false))
         (RuleEngine._normalize T text).
Proof.
  intros Hsp.
  pose proof (normalize_words_tokens T text Hsp) as Htok.
  exists (split T (sub_punctuation T (lower T text))). split_and!.
  - reflexivity.
  - exact Htok.
  - by apply normalize_split.
  - unfold RuleEngine._normalize.
    split; [by apply join_tokens_head|by apply join_tokens_last].
  - by apply normalize_chars.
Qed.

Lemma normalize_output_shape_witness :
  exists words,
    RuleEngine._normalize latin1 (py "  Hvad KOSTER   det?! ") = join [SPACE] words
    /\ Forall (is_token latin1) words.
Proof.
  destruct (normalize_output_shape latin1 (py "  Hvad KOSTER   det?! ") eq_refl)
    as (words & H1 & H2 & _).
  by exists words.
Defined.

Lemma sub_non_words_spaces T s :
  is_space T SPACE = true ->
  Forall (fun c => is_word T c = false) s ->
  Forall (fun c => is_space T c = true) (sub_punctuation T s).
Proof.
  intros Hsp Hs. unfold sub_punctuation. apply Forall_forall. intros c Hc.
  apply list_elem_of_In, in_map_iff in Hc as (x & <- & Hx).
  rewrite Forall_forall in Hs. rewrite (Hs x) by by apply list_elem_of_In.
  simpl. by destruct (is_space T x) eqn:Hx'.
Qed.

Lemma latin1_lower_char_non_word_any c :
  latin1_is_word c = false -> latin1_lower_char c = c.
Proof.
  intros Hw. destruct (N.ltb_spec c 256) as [Hc|Hc].
  - by apply latin1_lower_char_non_word.
  - unfold latin1_lower_char, between.
    replace (c <=? 90) with false by (symmetry; apply N.leb_gt; lia).
    replace (c <=? 214) with false by (symmetry; apply N.leb_gt; lia).
    replace (c <=? 222) with false by (symmetry; apply N.leb_gt; lia).
    by rewrite !andb_false_r.
Qed.

Lemma latin1_lower_keeps_non_words : lower_keeps_non_words latin1.
Proof.
  intros s Hs. cbn [lower latin1].
  rewrite <- (map_id s) in Hs. rewrite Forall_forall in Hs.
  apply Forall_forall. intros c Hc.
  apply list_elem_of_In, in_map_iff in Hc as (x & <- & Hx).
  assert (Hwx : latin1_is_word x = false).
  { apply (Hs x). rewrite map_id. by apply list_elem_of_In. }
  by rewrite latin1_lower_char_non_word_any.
Qed.

Lemma case_variants_lower s' s :
  case_variants s' s ->
  List.map latin1_lower_char s' = List.map latin1_lower_char s.
Proof. induction 1 as [|a b s' s Hab _ IH]; simpl; congruence. Qed.

Section NormalizeLatin1.
Variable T : CharTables.
Hypothesis HT : python_on_latin1 T.

Lemma python_space_is_space : is_space T SPACE = true.
Proof. destruct HT as [Hcls _]. by destruct (Hcls SPACE) as [_ ->]. Qed.

Lemma python_lower s : in_latin1 s -> lower T s = List.map latin1_lower_char s.
Proof. destruct HT as [_ Hlow]. apply Hlow. Qed.

Lemma in_latin1_lower s : in_latin1 s -> in_latin1 (List.map latin1_lower_char s).
Proof.
  unfold in_latin1. rewrite !Forall_forall. intros H c Hc.
  apply list_elem_of_In, in_map_iff in Hc as (x & <- & Hx).
  apply latin1_lower_char_range, H. by apply list_elem_of_In.
Qed.

Lemma python_lower_idemp s : in_latin1 s -> lower T (lower T s) = lower T s.
Proof.
  intros Hs. rewrite (python_lower s Hs).
  rewrite python_lower by by apply in_latin1_lower.
  rewrite List.map_map. apply map_ext_in. intros c Hc.
  apply latin1_lower_char_idemp.
  unfold in_latin1 in Hs. rewrite Forall_forall in Hs.
  by apply Hs, list_elem_of_In.
Qed.

(** Punctuation and whitespace become whitespace under [lower] and
    [re.sub]. *)
Lemma non_words_become_spaces p :
  in_latin1 p -> Forall (fun c => is_word T c = false) p ->
  Forall (fun c => is_space T c = true)
    (sub_punctuation T (List.map latin1_lower_char p)).
Proof.
  intros Hp Hw. unfold sub_punctuation. rewrite List.map_map.
  apply Forall_forall. intros c Hc.
  apply list_elem_of_In, in_map_iff in Hc as (x & <- & Hx).
  apply list_elem_of_In in Hx.
  unfold in_latin1 in Hp. rewrite Forall_forall in Hp, Hw.
  specialize (Hp x Hx). specialize (Hw x Hx).
  destruct HT as [Hcls _]. destruct (Hcls x Hp) as [Hwx _].
  rewrite latin1_lower_char_non_word by congruence.
  rewrite Hw. simpl. destruct (is_space T x) eqn:Hsp; [done|].
  apply python_space_is_space.
Qed.

Lemma normalize_affixes p s q :
  in_latin1 (p ++ s ++ q) ->
  Forall (fun c => is_word T c = false) p ->
  Forall (fun c => is_word T c = false) q ->
  RuleEngine._normalize T (p ++ s ++ q) = RuleEngine._normalize T s.
Proof.
  intros Hin Hp Hq. unfold RuleEngine._normalize.
  pose proof Hin as Hin'. unfold in_latin1 in Hin'.
  rewrite !Forall_app in Hin'. destruct Hin' as (Hlp & Hls & Hlq).
  rewrite (python_lower _ Hin), (python_lower s Hls).
  rewrite !map_app. unfold sub_punctuation at 1. rewrite !map_app.
  fold (sub_punctuation T (List.map latin1_lower_char p)).
  fold (sub_punctuation T (List.map latin1_lower_char s)).
  fold (sub_punctuation T (List.map latin1_lower_char q)).
  f_equal. rewrite split_leading by by apply non_words_become_spaces.
  unfold split. by rewrite split_from_trailing by by apply non_words_become_spaces.
Qed.

Lemma in_latin1_normalize s : in_latin1 s -> in_latin1 (RuleEngine._normalize T s).
Proof.
  intros Hs. unfold in_latin1, RuleEngine._normalize.
  apply Forall_forall. intros c Hc%list_elem_of_In.
  apply join_tokens_chars in Hc as [->|(w & Hw & Hc)]; [done|].
  apply split_from_tokens in Hw as (_ & _ & Hin); [|done].
  destruct (Hin c Hc) as [[]|Hc'].
  apply sub_punctuation_chars in Hc' as [->|[Hc' _]]; [done|].
  rewrite python_lower in Hc' by done.
  apply in_latin1_lower in Hs. unfold in_latin1 in Hs.
  rewrite Forall_forall in Hs. by apply Hs, list_elem_of_In.
Qed.

Lemma normalize_lower_fixed s :
  in_latin1 s ->
  List.map latin1_lower_char (RuleEngine._normalize T s) = RuleEngine._normalize T s.
Proof.
  intros Hs. rewrite <- (map_id (RuleEngine._normalize T s)) at 2.
  apply map_ext_in. intros c Hc. unfold RuleEngine._normalize in Hc.
  apply join_tokens_chars in Hc as [->|(w & Hw & Hc)]; [done|].
  apply split_from_tokens in Hw as (_ & _ & Hin); [|done].
  destruct (Hin c Hc) as [[]|Hc'].
  apply sub_punctuation_chars in Hc' as [->|[Hc' _]]; [done|].
  rewrite python_lower in Hc' by done.
  apply in_map_iff in Hc' as (x & <- & Hx).
  apply latin1_lower_char_idemp.
  unfold in_latin1 in Hs. rewrite Forall_forall in Hs.
  by apply Hs, list_elem_of_In.
Qed.

End NormalizeLatin1.

(** X2. Normalising is idempotent: a normalised message is left as it
    is by a second normalisation (Latin-1 messages, under any character
    tables that agree with Python's there). *)
Theorem normalize_idempotent (T : CharTables) (text : pystr) :
  python_on_latin1 T -> in_latin1 text ->
  RuleEngine._normalize T (RuleEngine._normalize T text)
  = RuleEngine._normalize T text.
Proof.
  intros HT Htext.
  pose proof (normalize_split T text (python_space_is_space T HT)) as Hsplit.
  pose proof (normalize_chars T text (python_space_is_space T HT)) as Hchars.
  unfold RuleEngine._normalize at 1.
  rewrite (python_lower T HT) by by apply in_latin1_normalize.
  rewrite normalize_lower_fixed by done.
  assert (Hsub : sub_punctuation T (RuleEngine._normalize T text)
                 = RuleEngine._normalize T text).
  { unfold sub_punctuation.
    rewrite <- (map_id (RuleEngine._normalize T text)) at 2.
    apply map_ext_in. intros c Hc.
    rewrite Forall_forall in Hchars.
    destruct (Hchars c) as [->|[-> _]]; [by apply list_elem_of_In| |done].
    by rewrite (python_space_is_space T HT), orb_true_r. }
  rewrite Hsub, Hsplit. reflexivity.
Qed.

Lemma normalize_idempotent_witness :
  RuleEngine._normalize latin1
    (RuleEngine._normalize latin1 (py "  Hvad KOSTER   det?! "))
  = RuleEngine._normalize latin1 (py "  Hvad KOSTER   det?! ").
Proof.
  apply normalize_idempotent; [exact latin1_python|].
  vm_compute. repeat constructor.
Defined.

(** X3. For Latin-1 text, punctuation and whitespace around a message
    do not count: characters that are not word characters, put before
    or after a message, leave its normalised form, and so the response
    of the rule engine to a non-empty message, as they were. (Under any
    character tables that agree with Python's on Latin-1. Beyond
    Latin-1, Python's lower-casing of a letter can depend on the
    characters before it.) *)
Theorem surrounding_punctuation_is_ignored
    (T : CharTables) (self : RuleEngine.t) (p s q : pystr) :
  python_on_latin1 T -> in_latin1 (p ++ s ++ q) ->
  Forall (fun c => is_word T c = false) p ->
  Forall (fun c => is_word T c = false) q ->
  RuleEngine._normalize T (p ++ s ++ q) = RuleEngine._normalize T s
  /\ (s <> [] ->
      RuleEngine.get_response T self (p ++ s ++ q)
      = RuleEngine.get_response T self s).
Proof.
  intros HT Hin Hp Hq.
  pose proof (normalize_affixes T HT p s q Hin Hp Hq) as Hn.
  split; [exact Hn|]. intros Hs. unfold RuleEngine.get_response.
  rewrite Hn. destruct s as [|c s]; [done|].
  destruct (p ++ (c :: s) ++ q) eqn:Heq; [|done].
  apply app_eq_nil in Heq as [_ Heq]. done.
Qed.

Lemma surrounding_punctuation_is_ignored_witness :
  RuleEngine.get_response latin1 RuleEngine.rule_engine
    (py "...  " ++ py "hvad koster det" ++ py "?!")
  = RuleEngine.get_response latin1 RuleEngine.rule_engine (py "hvad koster det").
Proof.
  apply surrounding_punctuation_is_ignored.
  - exact latin1_python.
  - vm_compute. repeat constructor.
  - vm_compute. repeat constructor.
  - vm_compute. repeat constructor.
  - vm_compute. discriminate.
Defined.

(** X4. For Latin-1 text, matching is case-insensitive: two messages
    that are the same, character by character, up to the case of their
    letters get the same response from the rule engine, whatever its
    catalog; so do a message and its lower-case form. (Under any
    character tables that agree with Python's on Latin-1.) *)
Theorem response_is_case_insensitive
    (T : CharTables) (self : RuleEngine.t) (s s' : pystr) :
  python_on_latin1 T -> in_latin1 s -> in_latin1 s' -> s <> [] ->
  case_variants s' s ->
  RuleEngine._normalize T s' = RuleEngine._normalize T s
  /\ RuleEngine.get_response T self s' = RuleEngine.get_response T self s
  /\ RuleEngine.get_response T self (lower T s)
     = RuleEngine.get_response T self s.
Proof.
  intros HT Hin Hin' Hs Hcase.
  assert (Hlow : lower T s' = lower T s).
  { rewrite (python_lower T HT s Hin), (python_lower T HT s' Hin').
    by apply case_variants_lower. }
  assert (Hn : RuleEngine._normalize T s' = RuleEngine._normalize T s).
  { unfold RuleEngine._normalize. by rewrite Hlow. }
  split_and!.
  - exact Hn.
  - unfold RuleEngine.get_response. rewrite Hn.
    destruct Hcase; [exfalso; by apply Hs|reflexivity].
  - unfold RuleEngine.get_response, RuleEngine._normalize.
    rewrite (python_lower_idemp T HT s Hin).
    destruct s as [|c s]; [exfalso; by apply Hs|].
    rewrite (python_lower T HT _ Hin). reflexivity.
Qed.

Lemma response_is_case_insensitive_witness :
  RuleEngine.get_response latin1 RuleEngine.rule_engine (py "Hvad KOSTER det")
  = RuleEngine.get_response latin1 RuleEngine.rule_engine (py "hvad koster det").
Proof.
  refine (proj1 (proj2 (response_is_case_insensitive latin1
            RuleEngine.rule_engine (py "hvad koster det")
            (py "Hvad KOSTER det") latin1_python _ _ _ _))).
  - vm_compute. repeat constructor.
  - vm_compute. repeat constructor.
  - vm_compute. discriminate.
  - vm_compute. repeat constructor.
Defined.

(** No keyword matches the empty string: the pattern begins with a
    word boundary, and the empty string has none. *)
Lemma keyword_never_matches_empty T kw : RuleEngine.keyword_matches T [] kw = false.
Proof. done. Qed.

Lemma match_intent_empty T self : RuleEngine._match_intent T self [] = None.
Proof.
  unfold RuleEngine._match_intent.
  induction (RuleEngine.intents self) as [|i l IH]; [done|]. cbn [List.find].
  assert (RuleEngine.intent_matches T [] i = false) as ->; [|exact IH].
  unfold RuleEngine.intent_matches.
  induction (RuleEngine.keywords i) as [|k ks IHk]; [done|]. cbn [existsb].
  by rewrite keyword_never_matches_empty.
Qed.

(** X5. A non-empty message without a single word character
    (punctuation, symbols, emoji) is never matched by a rule, whatever
    the catalog holds: its normalised form is empty, and the engine
    answers with its fallback, not with the reply it has for an empty
    message. This holds for every message, under any character tables
    in which the space is whitespace and lower-casing a string without
    word characters gives a string without word characters. *)
Theorem message_without_words_is_unmatched
    (T : CharTables) (self : RuleEngine.t) (m : pystr) :
  is_space T SPACE = true -> lower_keeps_non_words T -> m <> [] ->
  Forall (fun c => is_word T c = false) m ->
  RuleEngine._normalize T m = []
  /\ RuleEngine.get_response T self m = no_match_response.
Proof.
  intros Hsp Hlow Hne Hm.
  assert (Hn : RuleEngine._normalize T m = []).
  { unfold RuleEngine._normalize.
    pose proof (split_leading T (sub_punctuation T (lower T m)) []
      (sub_non_words_spaces T _ Hsp (Hlow m Hm))) as H.
    rewrite app_nil_r in H. by rewrite H. }
  split; [exact Hn|]. unfold RuleEngine.get_response.
  destruct m as [|c m]; [exfalso; by apply Hne|].
  rewrite Hn, match_intent_empty. reflexivity.
Qed.

Lemma message_without_words_is_unmatched_witness :
  RuleEngine.get_response latin1 RuleEngine.rule_engine (py "?!… € :-)")
  = no_match_response.
Proof.
  apply message_without_words_is_unmatched.
  - reflexivity.
  - exact latin1_lower_keeps_non_words.
  - vm_compute. discriminate.
  - vm_compute. repeat constructor.
Defined.

(** ** Keywords that an earlier intent takes over *)

Lemma whole_word_occurrence_trans T ka kb m :
  whole_word_occurrence T ka kb -> whole_word_occurrence T kb m ->
  whole_word_occurrence T ka m.
Proof.
  intros (p1 & q1 & -> & Hp1 & Hq1) (p2 & q2 & -> & Hp2 & Hq2).
  exists (p2 ++ p1), (q1 ++ q2). split_and!.
  - by rewrite <- !app_assoc.
  - rewrite last_app. destruct (last p1); [exact Hp1|exact Hp2].
  - destruct q1; [exact Hq2|exact Hq1].
Qed.

(** X6. A keyword of an intent that sits earlier in the engine's list
    takes over every keyword that contains it as a whole word: a message
    that matches the longer keyword [kb] is answered by the intent of the
    shorter keyword [ka] or by one before it, so never by an intent that
    comes later in the list. (In the catalog, "hej" of [greeting] takes
    over "hej hej" of [goodbye].) *)
Theorem earlier_keyword_shadows
    (T : CharTables) (self : RuleEngine.t)
    (before : list RuleEngine.Intent) (a : RuleEngine.Intent)
    (later : list RuleEngine.Intent) (ka kb m : pystr) :
  RuleEngine.intents self = before ++ a :: later ->
  In ka (RuleEngine.keywords a) ->
  word_at T (head (lower T ka)) = true -> word_at T (last (lower T ka)) = true ->
  word_at T (head (lower T kb)) = true -> word_at T (last (lower T kb)) = true ->
  RuleEngine.keyword_matches T (lower T kb) ka = true ->
  RuleEngine.keyword_matches T m kb = true ->
  (exists it, RuleEngine._match_intent T self m = Some it
     /\ In it (before ++ [a]))
  /\ (forall b, In b later -> ~ In b (before ++ [a]) ->
        RuleEngine._match_intent T self m <> Some b).
Proof.
  intros Hself Hka Ha1 Ha2 Hb1 Hb2 Hab Hbm.
  unfold RuleEngine.keyword_matches, RuleEngine.keyword_pattern in Hab, Hbm.
  apply search_whole_word in Hab; [|done..].
  apply search_whole_word in Hbm; [|done..].
  pose proof (whole_word_occurrence_trans T _ _ _ Hab Hbm) as Ham.
  apply (search_whole_word T _ _ Ha1 Ha2) in Ham.
  assert (Hmatch : RuleEngine.intent_matches T m a = true).
  { unfold RuleEngine.intent_matches. apply existsb_exists. by exists ka. }
  assert (Hfound : exists it, RuleEngine._match_intent T self m = Some it
                     /\ In it (before ++ [a])).
  { unfold RuleEngine._match_intent. rewrite Hself. clear Hself.
    induction before as [|x before IH]; cbn [app List.find].
    - rewrite Hmatch. exists a. split; [done|by left].
    - destruct (RuleEngine.intent_matches T m x).
      + exists x. split; [done|by left].
      + destruct IH as (it & Hit & Hin). exists it. split; [done|by right]. }
  split; [exact Hfound|].
  intros b _ Hb Heq. destruct Hfound as (it & Hit & Hin). congruence.
Qed.

Lemma earlier_keyword_shadows_witness :
  exists it,
    RuleEngine._match_intent latin1 RuleEngine.rule_engine (py "hej hej") = Some it
    /\ In it (firstn 13 (RuleEngine.intents RuleEngine.rule_engine)).
Proof.
  destruct (earlier_keyword_shadows latin1 RuleEngine.rule_engine
    (firstn 12 (RuleEngine.intents RuleEngine.rule_engine))
    (nth 0 RuleEngine.intent_definitions booking)
    (skipn 13 (RuleEngine.intents RuleEngine.rule_engine))
    (py "hej") (py "hej hej") (py "hej hej")) as [(it & Hit & Hin) _].
  - vm_compute. reflexivity.
  - vm_compute. by left.
  - vm_compute. reflexivity.
  - vm_compute. reflexivity.
  - vm_compute. reflexivity.
  - vm_compute. reflexivity.
  - vm_compute. reflexivity.
  - vm_compute. reflexivity.
  - exists it. split; [exact Hit|].
    assert (Heq : firstn 13 (RuleEngine.intents RuleEngine.rule_engine)
                  = firstn 12 (RuleEngine.intents RuleEngine.rule_engine)
                    ++ [nth 0 RuleEngine.intent_definitions booking]).
    { vm_compute. reflexivity. }
    rewrite Heq. exact Hin.
Defined.

(** ** The usage gate, call after call *)

Lemma gate_allows E client_id w c :
  answers E [SelectUsage; UpdateUsage] ->
  clients (db w) !! client_id = Some c ->
  (Client.ai_requests_today c < Client.ai_requests_limit c)%Z ->
  GeminiService.check_rate_limit E client_id w
  = Return true
      {| db := set_clients (insert client_id
                 (Client.with_ai_requests_today
                    (Client.ai_requests_today c + 1) c)) (db w);
         trace := (trace w ++ [Store SelectUsage]) ++ [Store UpdateUsage] |}.
Proof.
  intros Hans Hc Hlt. unfold answers in Hans. rewrite !Forall_cons in Hans.
  destruct Hans as (Hsel & Hupd & _). apply Z.leb_gt in Hlt. by run.
Qed.

Lemma gate_refuses E client_id w c :
  answers E [SelectUsage; UpdateUsage] ->
  clients (db w) !! client_id = Some c ->
  (Client.ai_requests_limit c <= Client.ai_requests_today c)%Z ->
  GeminiService.check_rate_limit E client_id w
  = Return false {| db := db w; trace := trace w ++ [Store SelectUsage] |}.
Proof.
  intros Hans Hc Hge. unfold answers in Hans. rewrite !Forall_cons in Hans.
  destruct Hans as (Hsel & Hupd & _). apply Z.leb_le in Hge. by run.
Qed.

(** X7. The gate hands out exactly what is left of the quota: of [k]
    calls in a row for a tenant, the first [limit - counter] are allowed
    and all later ones denied; the counter ends at the limit at most,
    the limit itself is never changed, and nothing in this code resets
    the counter. A tenant whose counter is already at or over its limit
    gets no call at all. *)
Theorem gate_hands_out_the_remaining_quota E client_id (k : nat) w c :
  answers E [SelectUsage; UpdateUsage] ->
  clients (db w) !! client_id = Some c ->
  let allowed := Nat.min k (quota_left c) in
  exists w',
    gate_calls E client_id k w
    = Return (repeat true allowed ++ repeat false (k - allowed)) w'
    /\ clients (db w') !! client_id
       = Some (Client.with_ai_requests_today
                 (Client.ai_requests_today c + Z.of_nat allowed) c)
    /\ (forall other, other <> client_id ->
          clients (db w') !! other = clients (db w) !! other)
    /\ conversations (db w') = conversations (db w)
    /\ messages (db w') = messages (db w).
Proof.
  intros Hans. cbv zeta. revert w c.
  induction k as [|k IH]; intros w c Hc.
  - exists w. simpl. rewrite Z.add_0_r. destruct c. done.
  - cbn [gate_calls]. unfold bind at 1.
    destruct (Z.leb_spec (Client.ai_requests_limit c) (Client.ai_requests_today c))
      as [Hge|Hlt].
    + rewrite (gate_refuses E client_id w c Hans Hc Hge).
      destruct (IH {| db := db w; trace := trace w ++ [Store SelectUsage] |} c Hc)
        as (w' & Hrun & Hcl & Hother & Hconv & Hmsg).
      unfold bind, ret. rewrite Hrun. exists w'.
      assert (Hq : quota_left c = 0%nat) by (unfold quota_left; lia).
      rewrite Hq in *. rewrite Nat.min_0_r in *.
      split_and!; [|exact Hcl|exact Hother|exact Hconv|exact Hmsg].
      simpl. by rewrite Nat.sub_0_r.
    + rewrite (gate_allows E client_id w c Hans Hc Hlt).
      set (c1 := Client.with_ai_requests_today (Client.ai_requests_today c + 1) c).
      destruct (IH {| db := set_clients (insert client_id c1) (db w);
                      trace := (trace w ++ [Store SelectUsage]) ++ [Store UpdateUsage] |}
                   c1) as (w' & Hrun & Hcl & Hother & Hconv & Hmsg).
      { cbn [db clients set_clients]. apply lookup_insert_eq. }
      unfold bind, ret. rewrite Hrun. exists w'.
      assert (Hq : quota_left c = S (quota_left c1)).
      { unfold quota_left, c1. cbn [Client.ai_requests_today
          Client.ai_requests_limit Client.with_ai_requests_today]. lia. }
      rewrite Hq. rewrite <- Nat.succ_min_distr.
      split_and!.
      * done.
      * rewrite Hcl. unfold c1, Client.with_ai_requests_today.
        cbn [Client.ai_requests_today Client.ai_requests_limit
             Client.company_name Client.website_url Client.is_active Client.use_ai].
        do 2 f_equal. lia.
      * intros other Hne. rewrite (Hother other Hne).
        cbn [db clients set_clients]. by rewrite lookup_insert_ne.
      * exact Hconv.
      * exact Hmsg.
Qed.

Lemma gate_hands_out_the_remaining_quota_witness :
  exists w',
    gate_calls (Demo.env (fun _ => false) [] None) (py "kunde1") 3 Demo.w0
    = Return [true; false; false] w'
    /\ clients (db w') !! py "kunde1"
       = Some (Client.with_ai_requests_today 1 Demo.kunde1).
Proof.
  destruct (gate_hands_out_the_remaining_quota
              (Demo.env (fun _ => false) [] None) (py "kunde1") 3 Demo.w0
              Demo.kunde1) as (w' & Hrun & Hc & _).
  - repeat constructor.
  - vm_compute. reflexivity.
  - exists w'. split; [exact Hrun|exact Hc].
Defined.

(** ** What a request leaves in the database *)




Lemma unsaved_not_saved reply :
  reply ∈ UNSAVED_REPLIES -> reply ∈ SAVED_FALLBACK_REPLIES -> False.
Proof.
  rewrite !list_elem_of_In. vm_compute.
  intros [<-|[<-|[<-|[<-|[]]]]] [H|[H|[]]]; discriminate H.
Qed.

Lemma chat_persistence E rq w : persistence_spec E rq w (Chat.chat E rq w).
Proof.
  run;
    unfold persistence_spec, session_conversation, conversation_id_of,
      new_conversation, valid_message, user_message, bot_message;
    cbv zeta; observe;
    repeat match goal with
      | Hm : strip _ _ = _ |- _ => rewrite Hm; clear Hm
      | Hf : List.find _ _ = _ |- _ => rewrite Hf
      end;
    cbn [ChatResponse.reply ChatResponse.is_fallback ChatResponse.is_ai
         ChatResponse.intent ChatResponse.tokens_used ChatResponse.of_dict
         ChatResponse.fallback ResponseData.reply ResponseData.is_fallback
         ResponseData.is_ai ResponseData.intent ResponseData.tokens_used
         Chat.rule_response_data Chat.final_fallback Conversation.id
         default from_option id];
    (split;
     [ first [ left; same | right; split; same ]
     | first
         [ left; split;
           [ same
           | intros r Hr;
             first [ discriminate Hr
                   | injection Hr as <-;
                     cbn [ChatResponse.reply ChatResponse.is_fallback
                          ChatResponse.fallback];
                     split; [reflexivity|unfold UNSAVED_REPLIES; in_list] ] ]
         | right; eexists; split; [reflexivity|];
           cbn [ChatResponse.reply ChatResponse.is_fallback ChatResponse.is_ai
                ChatResponse.intent ChatResponse.tokens_used ChatResponse.of_dict
                ChatResponse.fallback ResponseData.reply ResponseData.is_fallback
                ResponseData.is_ai ResponseData.intent ResponseData.tokens_used
                Chat.rule_response_data Chat.final_fallback Conversation.id
         default from_option id];
           split_and!;
           [ discriminate
           | apply Nat.ltb_ge; assumption
           | same
           | first [ left; first [assumption|reflexivity]
                   | right; split;
                     [reflexivity|unfold SAVED_FALLBACK_REPLIES; in_list] ] ] ] ]).
Qed.

Section StripTrimmed.
Variable T : CharTables.

Lemma lstrip_last s : lstrip T s <> [] -> last (lstrip T s) = last s.
Proof.
  induction s as [|c s IH]; simpl; [done|].
  destruct (is_space T c); [|done]. intros Hne.
  rewrite (IH Hne), last_cons.
  destruct (last s) eqn:Hl; [done|].
  apply last_None in Hl. subst s. done.
Qed.

Lemma head_of_rev (s : pystr) : head (List.rev s) = last s.
Proof.
  destruct s as [|c s] using rev_ind; [done|].
  by rewrite rev_unit, last_snoc.
Qed.

Lemma last_of_rev (s : pystr) : last (List.rev s) = head s.
Proof. by rewrite <- head_of_rev, rev_involutive. Qed.

(** What [str.strip] returns has no whitespace at either end. *)
Lemma strip_is_trimmed s : trimmed T (strip T s).
Proof.
  unfold trimmed, strip. rewrite head_of_rev, last_of_rev. split.
  - destruct (lstrip T (List.rev (lstrip T s))) eqn:Hx; [done|].
    rewrite <- Hx, lstrip_last, last_of_rev by (rewrite Hx; done).
    apply lstrip_head.
  - apply lstrip_head.
Qed.

End StripTrimmed.

Lemma find_app_new {A} (p : A -> bool) l x :
  List.find p l = None -> p x = true -> List.find p (l ++ [x]) = Some x.
Proof.
  intros Hl Hx. induction l as [|y l IH]; simpl in *; [by rewrite Hx|].
  destruct (p y); [done|]. by apply IH.
Qed.

Lemma pystr_eqb_refl s : pystr_eqb s s = true.
Proof. unfold pystr_eqb. by apply bool_decide_eq_true_2. Qed.

(** The conversation of the session is the same before and after the
    request. *)
Lemma conversation_id_of_stable rq rq2 d d' :
  ChatRequest.session_id rq2 = ChatRequest.session_id rq ->
  conversations d' = conversations d
  \/ (session_conversation rq d = None
      /\ conversations d' = conversations d ++ [new_conversation rq d]) ->
  conversation_id_of rq2 d' = conversation_id_of rq d.
Proof.
  intros Hs Hc. unfold conversation_id_of, session_conversation in *.
  rewrite Hs. destruct Hc as [Hc|[Hnone Hc]].
  - unfold next_conversation_id. by rewrite Hc.
  - rewrite Hc, Hnone. erewrite find_app_new; [done|exact Hnone|].
    apply pystr_eqb_refl.
Qed.


Lemma messages_of_app id E d d' u b :
  messages d' = messages d ++ Chat.in_created_at_order E u b ->
  Message.conversation_id u = id -> Message.conversation_id b = id ->
  messages_of id d' = messages_of id d ++ Chat.in_created_at_order E u b.
Proof.
  intros Hm Hu Hb. unfold messages_of. rewrite Hm, List.filter_app.
  f_equal. unfold Chat.in_created_at_order.
  destruct (assistant_row_first E); cbn [List.filter];
    by rewrite Hu, Hb, Nat.eqb_refl.
Qed.

Lemma lastn_app_short {A} n (l t : list A) :
  (length t <= n)%nat -> lastn n (l ++ t) = lastn (n - length t) l ++ t.
Proof.
  intros Hn. unfold lastn. rewrite length_app, skipn_app.
  replace (length l + length t - n)%nat with (length l - (n - length t))%nat by lia.
  replace (length l - (n - length t) - length l)%nat with 0%nat by lia.
  done.
Qed.

Lemma gemini_turn_user content :
  GeminiService.gemini_turn {| Turn.role := py "user"; Turn.content := content |}
  = {| Gemini.role := py "user"; Gemini.parts := [content] |}.
Proof.
  unfold GeminiService.gemini_turn. cbn [Turn.role Turn.content].
  assert (pystr_eqb (py "user") (py "assistant") = false) as ->
    by (vm_compute; reflexivity).
  reflexivity.
Qed.

Lemma gemini_turn_assistant content :
  GeminiService.gemini_turn
    {| Turn.role := py "assistant"; Turn.content := content |}
  = {| Gemini.role := py "model"; Gemini.parts := [content] |}.
Proof.
  unfold GeminiService.gemini_turn. cbn [Turn.role Turn.content].
  by rewrite pystr_eqb_refl.
Qed.



(** X11. A request only ever appends. The rows of [conversations] and
    [messages] that were there stay as they were and in their place; at
    most one conversation is added, for the session of the request and
    only when no stored conversation has that session id, so session ids
    that were unique stay unique; and either no message is added or
    exactly two are, the user turn and an assistant turn (in the order
    in which the database returns the rows of one commit): the text of
    the user turn is the stripped message, never empty, never longer
    than 1000 characters, without whitespace at either end. *)
Theorem chat_only_appends E rq w :
  let w' := final_world (Chat.chat E rq w) in
  let message := strip (tables E) (ChatRequest.message rq) in
  let cid := conversation_id_of rq (db w) in
  (exists new_conversations new_messages,
     conversations (db w') = conversations (db w) ++ new_conversations
     /\ messages (db w') = messages (db w) ++ new_messages
     /\ (new_conversations = []
         \/ (new_conversations = [new_conversation rq (db w)]
             /\ session_conversation rq (db w) = None))
     /\ (new_messages = []
         \/ exists bot,
              new_messages
              = Chat.in_created_at_order E (user_message cid message) bot
              /\ length new_messages = 2%nat
              /\ Message.role bot = py "assistant"
              /\ Message.conversation_id bot = cid
              /\ message <> [] /\ (length message <= 1000)%nat
              /\ trimmed (tables E) message))
  /\ (NoDup (List.map Conversation.session_id (conversations (db w))) ->
      NoDup (List.map Conversation.session_id (conversations (db w')))).
Proof.
  cbv zeta. destruct (chat_persistence E rq w) as [Hc Hm]. cbv zeta in Hc, Hm.
  split.
  - assert (Hcs : exists new_conversations,
               conversations (db (final_world (Chat.chat E rq w)))
               = conversations (db w) ++ new_conversations
               /\ (new_conversations = []
                   \/ (new_conversations = [new_conversation rq (db w)]
                       /\ session_conversation rq (db w) = None))).
    { destruct Hc as [->|[Hnone ->]].
      - exists []. rewrite app_nil_r. split; [done|by left].
      - eexists. split; [done|right; done]. }
    destruct Hcs as (new_conversations & Hcs & Hnew). exists new_conversations.
    destruct Hm as [[Hsame _]|(r & Hr & [Hne Hlen] & Hsaved & _)].
    + exists []. rewrite app_nil_r. split_and!; [done|done|done|by left].
    + eexists. split_and!; [exact Hcs|exact Hsaved|exact Hnew|].
      right. eexists. split_and!; [reflexivity| |reflexivity|reflexivity
                                   |exact Hne|exact Hlen|].
      * unfold Chat.in_created_at_order.
        by destruct (assistant_row_first E).
      * apply strip_is_trimmed.
  - intros Hnodup. destruct Hc as [->|[Hnone ->]]; [done|].
    rewrite map_app. apply NoDup_app. split_and!; [done| |].
    + intros s Hs Hnew. cbn in Hnew. apply list_elem_of_singleton in Hnew.
      subst s. apply list_elem_of_In, in_map_iff in Hs as (c & Hcs & Hin).
      unfold session_conversation in Hnone.
      eapply find_none in Hnone; [|exact Hin]. cbv beta in Hnone.
      rewrite Hcs, pystr_eqb_refl in Hnone. done.
    + cbn. apply NoDup_singleton.
Qed.

Lemma chat_only_appends_witness :
  exists bot,
    messages (db (final_world
      (Chat.chat (Demo.env (fun _ => false) [] None) (Demo.request " hej! ")
         Demo.w0)))
    = Chat.in_created_at_order (Demo.env (fun _ => false) [] None)
        (user_message 1 (py "hej!")) bot
    /\ NoDup (List.map Conversation.session_id
         (conversations (db (final_world
            (Chat.chat (Demo.env (fun _ => false) [] None)
               (Demo.request " hej! ") Demo.w0))))).
Proof.
  destruct (chat_only_appends (Demo.env (fun _ => false) [] None)
              (Demo.request " hej! ") Demo.w0)
    as [(cs & ms & _ & Hm & _ & Hms) Hnodup].
  destruct Hms as [->|(bot & -> & _)].
  - exfalso. vm_compute in Hm. discriminate Hm.
  - exists bot. split.
    + rewrite Hm. vm_compute. reflexivity.
    + apply Hnodup. vm_compute. constructor.
Defined.

(** X12. A saved exchange is the most recent context of the next
    request of the session. After a request that returned a rule hit, an
    AI answer, the AI-error fallback or the final fallback, the stored
    turns of the session are the ones from before followed by the user
    turn and the assistant turn of that request; if the next request of
    the session reaches the model, the history it passes ends with these
    two turns, the assistant's under the role "model". The rows of a
    later commit come after those of the earlier ones; the two rows of
    the exchange are written by one commit and may carry the same
    [created_at]: they come in the order in which the database returns
    them, user then model, or model then user when it puts the
    assistant's row first. *)
Theorem next_request_sees_the_exchange E rq w r w1 E2 rq2 hist prompt :
  Chat.chat E rq w = Return r w1 ->
  ChatResponse.is_fallback r = false
  \/ ChatResponse.reply r ∈ SAVED_FALLBACK_REPLIES ->
  ChatRequest.session_id rq2 = ChatRequest.session_id rq ->
  SendMessage hist prompt ∈ events_since w1 (final_world (Chat.chat E2 rq2 w1)) ->
  let message := strip (tables E) (ChatRequest.message rq) in
  let user_turn := {| Turn.role := py "user"; Turn.content := message |} in
  let assistant_turn :=
    {| Turn.role := py "assistant"; Turn.content := ChatResponse.reply r |} in
  let user_part := {| Gemini.role := py "user"; Gemini.parts := [message] |} in
  let model_part :=
    {| Gemini.role := py "model"; Gemini.parts := [ChatResponse.reply r] |} in
  stored_turns rq2 (db w1)
  = stored_turns rq (db w)
    ++ (if assistant_row_first E
        then [assistant_turn; user_turn] else [user_turn; assistant_turn])
  /\ exists older,
       hist = older
              ++ (if assistant_row_first E
                  then [model_part; user_part] else [user_part; model_part]).
Proof.
  intros Hrun Hnf Hsess Hin. cbv zeta.
  destruct (chat_persistence E rq w) as [Hc Hm]. rewrite Hrun in Hc, Hm.
  cbn [final_world] in Hc, Hm.
  destruct Hm as [[_ Hr]|(r0 & Hr0 & _ & Hsaved & _)].
  { destruct (Hr r eq_refl) as [Hfb Hreply].
    destruct Hnf as [Hnf|Hs]; [congruence|].
    destruct (unsaved_not_saved _ Hreply Hs). }
  injection Hr0 as <-.
  pose proof (conversation_id_of_stable rq rq2 (db w) (db w1) Hsess Hc) as Hid.
  assert (Hturns : stored_turns rq2 (db w1)
    = stored_turns rq (db w)
      ++ (if assistant_row_first E
          then [{| Turn.role := py "assistant";
                   Turn.content := ChatResponse.reply r |};
                {| Turn.role := py "user";
                   Turn.content := strip (tables E) (ChatRequest.message rq) |}]
          else [{| Turn.role := py "user";
                   Turn.content := strip (tables E) (ChatRequest.message rq) |};
                {| Turn.role := py "assistant";
                   Turn.content := ChatResponse.reply r |}])).
  { unfold stored_turns. rewrite Hid.
    rewrite (messages_of_app (conversation_id_of rq (db w)) E _ _ _ _
               Hsaved eq_refl eq_refl).
    rewrite map_app. f_equal. unfold Chat.in_created_at_order.
    by destruct (assistant_row_first E). }
  split; [exact Hturns|].
  destruct (chat_context E2 rq2 w1 hist prompt Hin) as (c & d & _ & -> & _).
  unfold GeminiService.build_chat_history.
  rewrite rev_firstn_rev, <- (lastn_map Chat.history_turn 10).
  rewrite lastn_lastn by lia.
  change (List.map Chat.history_turn
            (messages_of (conversation_id_of rq2 (db w1)) (db w1)))
    with (stored_turns rq2 (db w1)).
  rewrite Hturns.
  rewrite lastn_app_short by (destruct (assistant_row_first E); simpl; lia).
  rewrite map_app. eexists. f_equal.
  destruct (assistant_row_first E); cbn [List.map];
    by rewrite gemini_turn_user, gemini_turn_assistant.
Qed.

Lemma next_request_sees_the_exchange_witness :
  let user_part := {| Gemini.role := py "user"; Gemini.parts := [py "hej"] |} in
  let model_part :=
    {| Gemini.role := py "model";
       Gemini.parts := [py "Hej! Hvordan kan jeg hjælpe dig i dag?"] |} in
  (let env := Demo.env (fun _ => false) [] (Some (py "Her er svaret")) in
   let w1 := final_world (Chat.chat env (Demo.request "hej") Demo.w0) in
   exists hist prompt older,
     SendMessage hist prompt
       ∈ events_since w1 (final_world (Chat.chat env gibberish w1))
     /\ hist = older ++ [user_part; model_part])
  /\ (let env := assistant_first_env in
      let w1 := final_world (Chat.chat env (Demo.request "hej") Demo.w0) in
      exists hist prompt older,
        SendMessage hist prompt
          ∈ events_since w1 (final_world (Chat.chat env gibberish w1))
        /\ hist = older ++ [model_part; user_part]).
Proof.
  intros user_part model_part.
  assert (Hboth : forall env : Env,
    tables env = latin1 ->
    (let w1 := final_world (Chat.chat env (Demo.request "hej") Demo.w0) in
     Chat.chat env (Demo.request "hej") Demo.w0
     = Return {| ChatResponse.reply := py "Hej! Hvordan kan jeg hjælpe dig i dag?";
                 ChatResponse.intent := Some (py "greeting");
                 ChatResponse.is_ai := false;
                 ChatResponse.is_fallback := false;
                 ChatResponse.tokens_used := None |} w1
     /\ exists hist prompt,
          SendMessage hist prompt
            ∈ events_since w1 (final_world (Chat.chat env gibberish w1))) ->
    let w1 := final_world (Chat.chat env (Demo.request "hej") Demo.w0) in
    exists hist prompt older,
      SendMessage hist prompt
        ∈ events_since w1 (final_world (Chat.chat env gibberish w1))
      /\ hist = older
                ++ (if assistant_row_first env
                    then [model_part; user_part]
                    else [user_part; model_part])).
  { intros env Htab [H1 (hist & prompt & Hin)] w1.
    destruct (next_request_sees_the_exchange env (Demo.request "hej") Demo.w0
                _ w1 env gibberish hist prompt H1 (or_introl eq_refl)
                eq_refl Hin) as [_ (older & Hhist)].
    exists hist, prompt, older. split; [exact Hin|].
    rewrite Hhist, Htab. reflexivity. }
  split.
  - apply (Hboth (Demo.env (fun _ => false) [] (Some (py "Her er svaret")))
             eq_refl).
    split; [vm_compute; reflexivity|].
    eexists. eexists. vm_compute.
    do 6 apply list_elem_of_further. apply list_elem_of_here.
  - apply (Hboth assistant_first_env eq_refl).
    split; [vm_compute; reflexivity|].
    eexists. eexists. vm_compute.
    do 6 apply list_elem_of_further. apply list_elem_of_here.
Defined.

(** ** The conversation of a session *)

Lemma get_or_create_found E rq w c :
  storage_fails E SelectConversation = false ->
  session_conversation rq (db w) = Some c ->
  Chat.get_or_create_conversation E rq w
  = Return c {| db := db w; trace := trace w ++ [Store SelectConversation] |}.
Proof. unfold session_conversation. intros Hsel Hc. by run. Qed.

Lemma get_or_create_new E rq w :
  storage_fails E SelectConversation = false ->
  storage_fails E InsertConversation = false ->
  session_conversation rq (db w) = None ->
  Chat.get_or_create_conversation E rq w
  = Return (new_conversation rq (db w))
      {| db := add_conversation (new_conversation rq (db w)) (db w);
         trace := (trace w ++ [Store SelectConversation])
                  ++ [Store InsertConversation] |}.
Proof. unfold session_conversation. intros Hsel Hins Hc. by run. Qed.

Lemma get_or_create_answers E rq w c w1 :
  Chat.get_or_create_conversation E rq w = Return c w1 ->
  storage_fails E SelectConversation = false
  /\ ((session_conversation rq (db w) = Some c /\ db w1 = db w)
      \/ (session_conversation rq (db w) = None
          /\ c = new_conversation rq (db w)
          /\ db w1 = add_conversation c (db w))).
Proof.
  unfold session_conversation. run; intros H; try discriminate H;
    injection H as <- <-; (split; [reflexivity|]);
    [left|right]; split_and!; reflexivity || assumption.
Qed.

(** X13. Get-or-create is a round trip. The conversation it returns
    carries the session id of the request and is stored; asking again
    for the same session, from the same or any other request, returns
    that same conversation and writes nothing. A conversation is found
    by its session id alone: the client id of the request plays no part
    in the lookup. *)
Theorem conversation_is_created_once E rq w c w1 :
  Chat.get_or_create_conversation E rq w = Return c w1 ->
  Conversation.session_id c = ChatRequest.session_id rq
  /\ In c (conversations (db w1))
  /\ session_conversation rq (db w1) = Some c
  /\ forall rq2 w2,
       ChatRequest.session_id rq2 = ChatRequest.session_id rq ->
       db w2 = db w1 ->
       exists w3,
         Chat.get_or_create_conversation E rq2 w2 = Return c w3
         /\ db w3 = db w1.
Proof.
  intros Hrun.
  destruct (get_or_create_answers E rq w c w1 Hrun)
    as [Hsel [[Hfound Hdb]|(Hnone & Hc & Hdb)]].
  - assert (Hs : session_conversation rq (db w1) = Some c) by by rewrite Hdb.
    pose proof Hfound as Hf. unfold session_conversation in Hf.
    apply find_some in Hf as [Hin Heq].
    apply bool_decide_eq_true_1 in Heq.
    split_and!; [done|by rewrite Hdb|done|].
    intros rq2 w2 Hsess Hdb2. eexists. split.
    + apply get_or_create_found; [done|].
      unfold session_conversation in *. by rewrite Hsess, Hdb2.
    + done.
  - assert (Hs : session_conversation rq (db w1) = Some c).
    { rewrite Hdb. unfold session_conversation in *.
      cbn [conversations add_conversation].
      apply find_app_new; [done|]. subst c. apply pystr_eqb_refl. }
    split_and!; [by subst c| |done|].
    + rewrite Hdb. cbn [conversations add_conversation].
      apply in_app_iff. right. by left.
    + intros rq2 w2 Hsess Hdb2. eexists. split.
      * apply get_or_create_found; [done|].
        unfold session_conversation in *. by rewrite Hsess, Hdb2.
      * done.
Qed.

Lemma conversation_is_created_once_witness :
  let E := Demo.env (fun _ => false) [] None in
  exists c w1 w2,
    Chat.get_or_create_conversation E (Demo.request "hej") Demo.w0 = Return c w1
    /\ Chat.get_or_create_conversation E (Demo.request "farvel") w1 = Return c w2
    /\ db w2 = db w1.
Proof.
  intros E.
  destruct (Chat.get_or_create_conversation E (Demo.request "hej") Demo.w0)
    as [c w1|e w1] eqn:Hrun; [|vm_compute in Hrun; discriminate Hrun].
  destruct (conversation_is_created_once E _ _ _ _ Hrun) as (_ & _ & _ & Hagain).
  destruct (Hagain (Demo.request "farvel") w1 eq_refl eq_refl) as (w2 & H2 & Hdb).
  by exists c, w1, w2.
Defined.

(** ** AI switched off *)

Ltac not_in_events :=
  let Hin := fresh in
  intros Hin; split_elem Hin; discriminate.

(** X14. With AI switched off, by the request ([use_ai] false) or by
    the tenant (its [use_ai] column false, the default of the column),
    a request never reaches the AI path: the gate is not asked, no
    counter moves, the knowledge base is not read, the model is not
    called, and a response, if one is returned, is not marked as AI and
    carries no token estimate, whatever else happens. *)
Theorem ai_switched_off_is_never_called E rq w :
  ai_disabled rq w ->
  let o := Chat.chat E rq w in
  let w' := final_world o in
  ai_calls w' = ai_calls w
  /\ clients (db w') = clients (db w)
  /\ (Store SelectUsage ∉ events_since w w')
  /\ (Store UpdateUsage ∉ events_since w w')
  /\ (Store SelectKnowledge ∉ events_since w w')
  /\ (forall r, o = Return r w' ->
        ChatResponse.is_ai r = false /\ ChatResponse.tokens_used r = None).
Proof.
  intros [Hrq|(c & Hc & Hai)]; cbv zeta; run; observe;
    (split_and!;
     [ lia
     | same
     | not_in_events
     | not_in_events
     | not_in_events
     | let r := fresh in let Hr := fresh in
       intros r Hr;
       first [ discriminate Hr
             | injection Hr as <-; split; reflexivity ] ]).
Qed.

Lemma ai_switched_off_is_never_called_witness :
  let o := Chat.chat (Demo.env (fun _ => false) [] (Some (py "Her er svaret")))
             quiet_request Demo.w0 in
  ai_calls (final_world o) = ai_calls Demo.w0
  /\ clients (db (final_world o)) = clients (db Demo.w0).
Proof.
  intros o.
  destruct (ai_switched_off_is_never_called
              (Demo.env (fun _ => false) [] (Some (py "Her er svaret")))
              quiet_request Demo.w0) as (Hcalls & Hclients & _).
  - left. reflexivity.
  - split; [exact Hcalls|exact Hclients].
Defined.

(** ** The order of the statements of a request *)

Ltac sub_list :=
  lazymatch goal with
  | |- sublist [] _ => apply sublist_nil_l
  | |- sublist (?x :: _) (?y :: _) =>
      first [ constr_eq x y; apply sublist_skip; sub_list
            | apply sublist_cons; sub_list ]
  end.

Lemma chat_protocol E rq w : protocol_spec E w (Chat.chat E rq w).
Proof.
  run; unfold protocol_spec, PROTOCOL, BEFORE_THE_MODEL; cbv zeta; observe;
    cbn [List.map event_kind];
    (split;
     [ sub_list
     | let H := fresh in
       intros H;
       first [ exfalso; lia
             | repeat (apply Forall_cons; split;
                       [split; [in_list|assumption]|]);
               apply Forall_nil_2 ] ]).
Qed.

(** X15. Whatever a request asks of the outside, it asks in one fixed
    order and at most once: client lookup, conversation lookup,
    conversation insert, history query, usage check, usage update,
    knowledge lookup, the call to the model, the saving of the turn;
    nothing is repeated or retried, nothing is asked after the turn is
    saved. When the model is called, the client, conversation, history,
    usage and knowledge statements have all been sent before and have
    all answered. *)
Theorem statements_follow_the_protocol E rq w :
  let w' := final_world (Chat.chat E rq w) in
  let evs := events_since w w' in
  sublist (List.map event_kind evs) PROTOCOL
  /\ NoDup (List.map event_kind evs)
  /\ (ai_calls w' = S (ai_calls w) ->
      Forall (fun op => Store op ∈ evs /\ storage_fails E op = false)
        BEFORE_THE_MODEL).
Proof.
  cbv zeta. destruct (chat_protocol E rq w) as [Hsub Hai].
  split_and!; [exact Hsub| |exact Hai].
  eapply sublist_NoDup; [|exact Hsub].
  unfold PROTOCOL. repeat (apply NoDup_cons; split;
    [intros Hin; split_elem Hin; discriminate|]).
  apply NoDup_nil_2.
Qed.

Lemma statements_follow_the_protocol_witness :
  let E := Demo.env (fun _ => false) [] (Some (py "Her er svaret")) in
  Forall (fun op =>
            Store op ∈ events_since Demo.w0
                         (final_world (Chat.chat E gibberish Demo.w0))
            /\ storage_fails E op = false)
    BEFORE_THE_MODEL.
Proof.
  intros E.
  apply (proj2 (proj2 (statements_follow_the_protocol E gibberish Demo.w0))).
  vm_compute. reflexivity.
Defined.

(** ** The configuration *)

Lemma pystr_eqb_true a b : pystr_eqb a b = true <-> a = b.
Proof. unfold pystr_eqb. apply bool_decide_eq_true. Qed.

Lemma pystr_eqb_false a b : pystr_eqb a b = false <-> a <> b.
Proof. unfold pystr_eqb. apply bool_decide_eq_false. Qed.

Lemma validate_settings_raised s :
  Config.raised (Config.validate_settings s)
  = if pystr_eqb (Settings.ENVIRONMENT s) (py "production")
       && pystr_eqb (Settings.SECRET_KEY s) (py "change-this-in-production")
    then Some (py "Configuration errors: " ++ Config.SECRET_KEY_ERROR)
    else None.
Proof.
  unfold Config.validate_settings.
  destruct (Settings.GEMINI_API_KEY s) as [|k ks]; cbv beta iota zeta;
    cbn [Settings.ENVIRONMENT Settings.SECRET_KEY Settings.DATABASE_URL
         Settings.set_USE_AI_FALLBACK];
    destruct (pystr_eqb (Settings.ENVIRONMENT s) _);
    try destruct (pystr_eqb (Settings.SECRET_KEY s) _);
    cbn [Config.raised app join andb]; reflexivity.
Qed.

Lemma validate_settings_printed s :
  Config.printed (Config.validate_settings s)
  = match Settings.GEMINI_API_KEY s with
    | [] => Config.KEY_WARNING
    | _ => []
    end
    ++ if pystr_eqb (Settings.ENVIRONMENT s) (py "production")
          && Config.startswith (py "sqlite") (Settings.DATABASE_URL s)
       then Config.SQLITE_WARNING else [].
Proof.
  unfold Config.validate_settings.
  destruct (Settings.GEMINI_API_KEY s) as [|k ks]; cbv beta iota zeta;
    cbn [Settings.ENVIRONMENT Settings.SECRET_KEY Settings.DATABASE_URL
         Settings.set_USE_AI_FALLBACK];
    destruct (pystr_eqb (Settings.ENVIRONMENT s) _);
    try destruct (Config.startswith _ (Settings.DATABASE_URL s));
    cbn [Config.printed andb]; rewrite ?app_nil_r; reflexivity.
Qed.

Lemma secret_key_error_message :
  py "Configuration errors: " ++ Config.SECRET_KEY_ERROR
  = py "Configuration errors: SECRET_KEY must be changed in production".
Proof. vm_compute. reflexivity. Qed.

(** X16. [validate_settings] raises in exactly one case: the
    environment is "production" (spelled so, the comparison is exact)
    and the secret key is still the default one. The error then is
    "Configuration errors: SECRET_KEY must be changed in production". A
    missing Gemini key and an SQLite database in production only print
    their two-line warnings: what is printed is the key warning when the
    key is empty, followed by the SQLite warning when the environment
    is "production" and the database URL starts with "sqlite", and
    nothing else. Outside production nothing is looked at but the
    Gemini key. *)
Theorem validate_settings_raises_iff (s : Settings.t) :
  let v := Config.validate_settings s in
  let key_warning :=
    match Settings.GEMINI_API_KEY s with
    | [] => Config.KEY_WARNING
    | _ => []
    end in
  (Config.raised v <> None <-> in_production s /\ default_secret s)
  /\ (in_production s -> default_secret s ->
      Config.raised v
      = Some (py "Configuration errors: SECRET_KEY must be changed in production"))
  /\ (in_production s ->
      Config.startswith (py "sqlite") (Settings.DATABASE_URL s) = true ->
      Config.printed v = key_warning ++ Config.SQLITE_WARNING)
  /\ (in_production s ->
      Config.startswith (py "sqlite") (Settings.DATABASE_URL s) = false ->
      Config.printed v = key_warning)
  /\ (~ in_production s ->
      Config.raised v = None /\ Config.printed v = key_warning).
Proof.
  cbv zeta. unfold in_production, default_secret.
  rewrite validate_settings_raised, validate_settings_printed,
    secret_key_error_message.
  destruct (pystr_eqb (Settings.ENVIRONMENT s) (py "production")) eqn:He;
    [apply pystr_eqb_true in He|apply pystr_eqb_false in He];
    (destruct (pystr_eqb (Settings.SECRET_KEY s)
                 (py "change-this-in-production")) eqn:Hs;
     [apply pystr_eqb_true in Hs|apply pystr_eqb_false in Hs]);
    cbn [andb].
  - split_and!.
    + split; [intros _; split; assumption|intros _; discriminate].
    + intros _ _. reflexivity.
    + intros _ ->. reflexivity.
    + intros _ ->. by rewrite app_nil_r.
    + intros Hn. destruct (Hn He).
  - split_and!.
    + split; [intros Hn; destruct (Hn eq_refl)|intros [_ Hd]; destruct (Hs Hd)].
    + intros _ Hd. destruct (Hs Hd).
    + intros _ ->. reflexivity.
    + intros _ ->. by rewrite app_nil_r.
    + intros Hn. destruct (Hn He).
  - split_and!.
    + split; [intros Hn; destruct (Hn eq_refl)|intros [Hp _]; destruct (He Hp)].
    + intros Hp. destruct (He Hp).
    + intros Hp. destruct (He Hp).
    + intros Hp. destruct (He Hp).
    + intros _. rewrite app_nil_r. split; reflexivity.
  - split_and!.
    + split; [intros Hn; destruct (Hn eq_refl)|intros [Hp _]; destruct (He Hp)].
    + intros Hp. destruct (He Hp).
    + intros Hp. destruct (He Hp).
    + intros Hp. destruct (He Hp).
    + intros _. rewrite app_nil_r. split; reflexivity.
Qed.

Lemma validate_settings_raises_iff_witness :
  Config.raised (Config.validate_settings production_settings)
  = Some (py "Configuration errors: SECRET_KEY must be changed in production")
  /\ Config.printed (Config.validate_settings production_settings)
     = Config.SQLITE_WARNING
  /\ Config.raised (Config.validate_settings Settings.defaults) = None
  /\ Config.printed (Config.validate_settings Settings.defaults)
     = Config.KEY_WARNING.
Proof.
  pose proof (validate_settings_raises_iff production_settings)
    as (_ & Hraise & Hsqlite & _).
  pose proof (validate_settings_raises_iff Settings.defaults)
    as (_ & _ & _ & _ & Hdev).
  cbv zeta in *.
  assert (Hnot : ~ in_production Settings.defaults).
  { unfold in_production. vm_compute. discriminate. }
  split_and!.
  - apply Hraise; reflexivity.
  - apply Hsqlite; [reflexivity|vm_compute; reflexivity].
  - apply (Hdev Hnot).
  - apply (Hdev Hnot).
Defined.

(** X17. After [validate_settings], raised or not, the AI fallback is
    on only if a Gemini key is set: the flag is cleared when the key is
    empty, never set, and no other setting is touched. Validating again
    changes nothing and prints and raises the same. With [TESTING] set
    to "true" the import validates nothing, so the settings stay as
    loaded, default secret key in production included. *)
Theorem validate_settings_guards_ai_fallback (s : Settings.t) :
  let v := Config.validate_settings s in
  let s' := Config.settings_after v in
  s' = Settings.set_USE_AI_FALLBACK
         (Settings.USE_AI_FALLBACK s
          && negb (pystr_eqb (Settings.GEMINI_API_KEY s) [])) s
  /\ (Settings.USE_AI_FALLBACK s' = true ->
      Settings.GEMINI_API_KEY s' <> [] /\ Settings.USE_AI_FALLBACK s = true)
  /\ (Settings.GEMINI_API_KEY s = [] -> Settings.USE_AI_FALLBACK s' = false)
  /\ Config.validate_settings s' = v
  /\ Config.on_import (Some (py "true")) s
     = {| Config.settings_after := s; Config.printed := [];
          Config.raised := None |}
  /\ Config.on_import None s = v.
Proof.
  cbv zeta.
  assert (Hafter : Config.settings_after (Config.validate_settings s)
    = match Settings.GEMINI_API_KEY s with
      | [] => Settings.set_USE_AI_FALLBACK false s
      | _ => s
      end).
  { unfold Config.validate_settings.
    destruct (Settings.GEMINI_API_KEY s);
      by destruct (pystr_eqb (Settings.ENVIRONMENT _) _). }
  split_and!.
  - rewrite Hafter. destruct (Settings.GEMINI_API_KEY s) as [|k ks] eqn:Hk.
    + by rewrite pystr_eqb_refl, andb_false_r.
    + replace (pystr_eqb (k :: ks) []) with false
        by (symmetry; by apply pystr_eqb_false).
      rewrite andb_true_r. by destruct s.
  - rewrite Hafter. destruct (Settings.GEMINI_API_KEY s) as [|k ks] eqn:Hk;
      [done|].
    intros H. split; [by rewrite Hk|done].
  - rewrite Hafter. by intros ->.
  - rewrite Hafter. unfold Config.validate_settings.
    destruct (Settings.GEMINI_API_KEY s) eqn:Hk.
    + cbn [Settings.GEMINI_API_KEY Settings.set_USE_AI_FALLBACK
           Settings.ENVIRONMENT Settings.SECRET_KEY Settings.DATABASE_URL].
      rewrite Hk. reflexivity.
    + rewrite Hk. reflexivity.
  - unfold Config.on_import.
    replace (pystr_eqb (py "true") (py "true")) with true
      by (symmetry; apply pystr_eqb_refl).
    reflexivity.
  - reflexivity.
Qed.

Lemma validate_settings_guards_ai_fallback_witness :
  Settings.USE_AI_FALLBACK
    (Config.settings_after (Config.validate_settings Settings.defaults)) = false.
Proof.
  apply (proj1 (proj2 (proj2
    (validate_settings_guards_ai_fallback Settings.defaults)))).
  reflexivity.
Defined.

(** ** Requests that are turned away *)

(** X18. A request that is turned away leaves no trace. When [chat]
    raises (the 404 of an unknown client, the 403 of an inactive one),
    the database is exactly as it was: no conversation was created for
    the session, no turn saved, no counter moved; the one statement sent
    was the client lookup, and the model was not called. *)
Theorem rejected_request_leaves_no_trace E rq w e w' :
  Chat.chat E rq w = Raise e w' ->
  db w' = db w
  /\ events_since w w' = [Store SelectClient]
  /\ ai_calls w' = ai_calls w
  /\ (e = NOT_FOUND \/ e = NOT_ACTIVE).
Proof.
  intros Hrun.
  destruct (chat_propagation E rq w) as [Hraise _].
  destruct (Hraise e w' Hrun) as (Hvalid & Hsel & [[-> Hc]|[-> (c & Hc & Hact)]]).
  - rewrite (unknown_client_raises E rq w Hvalid Hsel Hc) in Hrun.
    injection Hrun as <-. split_and!; [reflexivity| | |by left].
    + apply events_since_app.
    + by rewrite ai_calls_log, Nat.add_0_r.
  - rewrite (inactive_client_raises E rq w c Hvalid Hsel Hc Hact) in Hrun.
    injection Hrun as <-. split_and!; [reflexivity| | |by right].
    + apply events_since_app.
    + by rewrite ai_calls_log, Nat.add_0_r.
Qed.

Lemma rejected_request_leaves_no_trace_witness :
  exists e w',
    Chat.chat (Demo.env (fun _ => false) [] None) unknown_client_request Demo.w0
    = Raise e w'
    /\ db w' = db Demo.w0.
Proof.
  destruct (Chat.chat (Demo.env (fun _ => false) [] None)
              unknown_client_request Demo.w0) as [r w'|e w'] eqn:Hrun;
    [vm_compute in Hrun; discriminate Hrun|].
  destruct (rejected_request_leaves_no_trace _ _ _ _ _ Hrun) as (Hdb & _).
  exists e, w'. split; [reflexivity|exact Hdb].
Defined.
